(** * Focus-Guard: domain rules, block list store and navigation guard

    A shallow embedding of the extension's logical core:
    - [normalizeDomain] and [isValidDomain] (the storage package),
    - the persisted block list with its [deserialize] hook and the
      [add] / [remove] / [toggle] / [isBlocked] operations,
    - the background script's [checkAndBlockDomain] and its two listeners.

    Strings.  A JavaScript string is a sequence of UTF-16 code units.  The
    embedding uses Rocq's [string], whose characters are read as the code
    units 0..255 (Latin-1).  On that fragment [trim], [toLowerCase],
    [startsWith], [includes], [split] and the regular expressions of the
    source are modelled exactly; code units above 255 are not represented. *)

From Stdlib Require Import String Ascii List Bool Arith ZArith Lia.
Import ListNotations.

Local Open Scope string_scope.
Local Open Scope list_scope.

(* ================================================================== *)
(** ** JavaScript string primitives used by the source *)

Module Js.

(** Code units removed by [String.prototype.trim]: TAB, LF, VT, FF, CR,
    SPACE and NO-BREAK SPACE (the white space and line terminators below
    256). *)
Definition isWhiteSpace (c : ascii) : bool :=
  let n := nat_of_ascii c in
  (((9 <=? n) && (n <=? 13)) || (n =? 32) || (n =? 160))%nat.

Fixpoint trimStart (s : string) : string :=
  match s with
  | EmptyString => EmptyString
  | String c r => if isWhiteSpace c then trimStart r else s
  end.

Fixpoint trimEnd (s : string) : string :=
  match s with
  | EmptyString => EmptyString
  | String c r =>
      match trimEnd r with
      | EmptyString => if isWhiteSpace c then EmptyString else String c EmptyString
      | r' => String c r'
      end
  end.

Definition trim (s : string) : string := trimEnd (trimStart s).

(** Lower-casing of one code unit: A-Z, and the Latin-1 capitals
    U+00C0..U+00DE except the multiplication sign U+00D7. *)
Definition lowerChar (c : ascii) : ascii :=
  let n := nat_of_ascii c in
  if (((65 <=? n) && (n <=? 90)) ||
      ((192 <=? n) && (n <=? 222) && negb (n =? 215)))%nat
  then ascii_of_nat (n + 32) else c.

Fixpoint toLowerCase (s : string) : string :=
  match s with
  | EmptyString => EmptyString
  | String c r => String (lowerChar c) (toLowerCase r)
  end.

(** [s.startsWith(p)]. *)
Definition startsWith (p s : string) : bool := String.prefix p s.

(** [s.endsWith(p)]. *)
Fixpoint endsWith (p s : string) : bool :=
  (s =? p) ||
  match s with
  | EmptyString => false
  | String _ r => endsWith p r
  end.

(** [s.includes(p)]. *)
Fixpoint includes (p s : string) : bool :=
  startsWith p s ||
  match s with
  | EmptyString => false
  | String _ r => includes p r
  end.

(** The rest of [s] after the literal prefix [p], when [s] starts with it. *)
Fixpoint stripPrefix (p s : string) : option string :=
  match p, s with
  | EmptyString, _ => Some s
  | String a p', String b s' => if Ascii.eqb a b then stripPrefix p' s' else None
  | String _ _, EmptyString => None
  end.

(** [s.split(sep)] for a one-character separator: never empty. *)
Fixpoint split (sep : ascii) (s : string) : list string :=
  match s with
  | EmptyString => [EmptyString]
  | String c r =>
      if Ascii.eqb c sep then EmptyString :: split sep r
      else match split sep r with
           | [] => [String c EmptyString]
           | piece :: pieces => String c piece :: pieces
           end
  end.

End Js.

(* ================================================================== *)
(** ** Regular expressions, matched by derivatives *)

Module Regex.

Inductive regex : Type :=
| Void : regex
| Eps : regex
| Class : (ascii -> bool) -> regex
| Cat : regex -> regex -> regex
| Alt : regex -> regex -> regex
| Star : regex -> regex.

Fixpoint nullable (r : regex) : bool :=
  match r with
  | Void => false
  | Eps => true
  | Class _ => false
  | Cat a b => nullable a && nullable b
  | Alt a b => nullable a || nullable b
  | Star _ => true
  end.

Definition cat (a b : regex) : regex :=
  match a, b with
  | Void, _ => Void
  | _, Void => Void
  | Eps, _ => b
  | _, Eps => a
  | _, _ => Cat a b
  end.

Definition alt (a b : regex) : regex :=
  match a, b with
  | Void, _ => b
  | _, Void => a
  | _, _ => Alt a b
  end.

Fixpoint deriv (c : ascii) (r : regex) : regex :=
  match r with
  | Void => Void
  | Eps => Void
  | Class p => if p c then Eps else Void
  | Cat a b =>
      alt (cat (deriv c a) b) (if nullable a then deriv c b else Void)
  | Alt a b => alt (deriv c a) (deriv c b)
  | Star a => cat (deriv c a) (Star a)
  end.

(** Whole-string match: the [^...$] of the source's patterns. *)
Fixpoint matches (r : regex) (s : string) : bool :=
  match s with
  | EmptyString => nullable r
  | String c s' => matches (deriv c r) s'
  end.

Definition Opt (r : regex) : regex := Alt r Eps.
Definition Plus (r : regex) : regex := Cat r (Star r).

(** [r{0,n}]. *)
Fixpoint UpTo (n : nat) (r : regex) : regex :=
  match n with
  | O => Eps
  | S n' => Opt (Cat r (UpTo n' r))
  end.

End Regex.

(* ================================================================== *)
(** ** Domain rules *)

(** [domain.replace(/^https?:\/\//, '')]. *)
Definition replaceScheme (s : string) : string :=
  match Js.stripPrefix "https://" s with
  | Some r => r
  | None =>
      match Js.stripPrefix "http://" s with
      | Some r => r
      | None => s
      end
  end.

(** [domain.replace(/^www\./, '')]. *)
Definition replaceWww (s : string) : string :=
  match Js.stripPrefix "www." s with
  | Some r => r
  | None => s
  end.

(** [domain.replace(/\/$/, '')]: one slash at the very end is removed. *)
Fixpoint replaceTrailingSlash (s : string) : string :=
  match s with
  | EmptyString => EmptyString
  | String c EmptyString => if Ascii.eqb c "/" then EmptyString else s
  | String c r => String c (replaceTrailingSlash r)
  end.

(** [domain.split('/')[0]]. *)
Definition firstSegment (s : string) : string :=
  match Js.split "/" s with
  | piece :: _ => piece
  | [] => EmptyString
  end.

Definition normalizeDomain (input : string) : string :=
  let domain := Js.toLowerCase (Js.trim input) in
  let domain := replaceScheme domain in
  let domain := replaceWww domain in
  let domain := replaceTrailingSlash domain in
  let domain := firstSegment domain in
  domain.

(** Character classes of [domainRegex]; the pattern carries the [i] flag,
    so a letter class holds both cases. *)
Definition isDigit (c : ascii) : bool :=
  let n := nat_of_ascii c in ((48 <=? n) && (n <=? 57))%nat.

Definition isAlpha (c : ascii) : bool :=
  let n := nat_of_ascii c in
  (((97 <=? n) && (n <=? 122)) || ((65 <=? n) && (n <=? 90)))%nat.

Definition isAlnum (c : ascii) : bool := isAlpha c || isDigit c.

Definition isAlnumHyphen (c : ascii) : bool := isAlnum c || Ascii.eqb c "-".

Definition isDot (c : ascii) : bool := Ascii.eqb c ".".

(** [[a-z0-9]([a-z0-9-]{0,61}[a-z0-9])?] *)
Definition labelRegex : Regex.regex :=
  Regex.Cat (Regex.Class isAlnum)
    (Regex.Opt (Regex.Cat (Regex.UpTo 61 (Regex.Class isAlnumHyphen))
                          (Regex.Class isAlnum))).

(** [/^([a-z0-9]([a-z0-9-]{0,61}[a-z0-9])?\.)+[a-z]{2,}$/i] *)
Definition domainRegex : Regex.regex :=
  Regex.Cat (Regex.Plus (Regex.Cat labelRegex (Regex.Class isDot)))
    (Regex.Cat (Regex.Class isAlpha)
       (Regex.Cat (Regex.Class isAlpha) (Regex.Star (Regex.Class isAlpha)))).

(** The check of one label in the final loop of [isValidDomain]. *)
Definition labelOk (label : string) : bool :=
  negb ((63 <? String.length label)%nat || (String.length label =? 0)%nat) &&
  negb (Js.startsWith "-" label || Js.endsWith "-" label).

Definition isValidDomain (domain : string) : bool :=
  if (domain =? "")%string then false
  else if negb (Regex.matches domainRegex domain) then false
  else if (253 <? String.length domain)%nat then false
  else
    let labels := Js.split "." domain in
    if (List.length labels <? 2)%nat then false
    else
      let tld := List.last labels EmptyString in
      if (String.length tld <? 2)%nat then false
      else forallb labelOk labels.

(* ================================================================== *)
(** ** Block list store *)

Record BlockedDomain : Type := mkBlockedDomain {
  domain : string;
  enabled : bool
}.

(** The value held under the storage key, as the typed API sees it. *)
Definition Store : Type := list BlockedDomain.

(** A thrown [Error] with its message. *)
Inductive Error : Type :=
| mkError (message : string).

Definition InvalidFormat : Error := mkError "Invalid domain format".
Definition DuplicateEntry : Error := mkError "Domain already exists".

(** An asynchronous store operation: from the persisted collection to its
    outcome (rejected with an error, or resolved with a value) and the
    collection persisted afterwards. *)
Definition Promise (A : Type) : Type := Store -> (Error + A) * Store.

Module storage.

(** Modelled from the spec: the generic storage wrapper ([createStorage] of
    the base package) is not among the sources.  [get] returns a snapshot of
    the current collection. *)
Definition get : Promise Store :=
  fun current => (inr current, current).

(** Modelled from the spec: [set(update)] reads the current collection,
    computes the new one with [update] and commits it as one unit; when
    [update] throws, the promise is rejected and nothing is committed. *)
Definition set (update : Store -> Error + Store) : Promise unit :=
  fun current =>
    match update current with
    | inl e => (inl e, current)
    | inr next => (inr tt, next)
    end.

End storage.

(** The arrow function that [toggle] maps over the collection:
    [d => (d.domain === domain ? { ...d, enabled: !d.enabled } : d)]. *)
Definition flipIf (dom : string) (d : BlockedDomain) : BlockedDomain :=
  if (domain d =? dom)%string
  then mkBlockedDomain (domain d) (negb (enabled d))
  else d.

Module blockedDomainsStorage.

(** [add]: the format check throws before the store is touched; the
    duplicate check throws inside the update passed to [storage.set]. *)
Definition add (rawDomain : string) : Promise unit :=
  fun current =>
    let normalized := normalizeDomain rawDomain in
    if (normalized =? "")%string || negb (isValidDomain normalized)
    then (inl InvalidFormat, current)
    else
      storage.set
        (fun currentDomains =>
           if existsb (fun d => (domain d =? normalized)%string) currentDomains
           then inl DuplicateEntry
           else inr (currentDomains ++ [mkBlockedDomain normalized true]))
        current.

(** [remove]: the argument is compared as given. *)
Definition remove (dom : string) : Promise unit :=
  storage.set
    (fun currentDomains =>
       inr (filter (fun d => negb (domain d =? dom)%string) currentDomains)).

(** [toggle]: the argument is compared as given. *)
Definition toggle (dom : string) : Promise unit :=
  storage.set (fun currentDomains => inr (map (flipIf dom) currentDomains)).

(** [isBlocked]: the argument is normalized, and the first entry with that
    domain decides. *)
Definition isBlocked (dom : string) : Promise bool :=
  fun current =>
    let normalized := normalizeDomain dom in
    match storage.get current with
    | (inr domains, next) =>
        match find (fun d => (domain d =? normalized)%string) domains with
        | Some blocked => (inr (enabled blocked), next)
        | None => (inr false, next)
        end
    | (inl e, next) => (inl e, next)
    end.

End blockedDomainsStorage.

(** The mutations a user of the store can issue. *)
Inductive Op : Type :=
| Add (rawDomain : string)
| Remove (dom : string)
| Toggle (dom : string).

Definition perform (op : Op) : Promise unit :=
  match op with
  | Add d => blockedDomainsStorage.add d
  | Remove d => blockedDomainsStorage.remove d
  | Toggle d => blockedDomainsStorage.toggle d
  end.

(** The collection after one operation, whether it resolved or was rejected. *)
Definition after (op : Op) (current : Store) : Store := snd (perform op current).

(** The collection after a sequence of operations, left to right. *)
Definition run (ops : list Op) (start : Store) : Store :=
  fold_left (fun s op => after op s) ops start.

(* ================================================================== *)
(** ** JSON values and the deserialization hook *)

Module Json.

(** A parsed JSON text.  A number keeps its lexeme: the source never
    inspects one. *)
#[local] Unset Elimination Schemes.
Inductive value : Type :=
| Null : value
| Bool : bool -> value
| Number : string -> value
| Str : string -> value
| Array : list value -> value
| Object : list (string * value) -> value.
#[local] Set Elimination Schemes.

Fixpoint lookup (key : string) (members : list (string * value)) : option value :=
  match members with
  | [] => None
  | (k, v) :: rest => if (k =? key)%string then Some v else lookup key rest
  end.

(** [item.key] for the two names the source reads ([domain], [enabled]):
    [None] stands for [undefined], which is what an array yields. *)
Definition member (key : string) (item : value) : option value :=
  match item with
  | Object members => lookup key members
  | _ => None
  end.

(** [item && typeof item === 'object']: [null] is falsy, and booleans,
    numbers and strings have another [typeof]. *)
Definition isObjectLike (item : value) : bool :=
  match item with
  | Array _ | Object _ => true
  | _ => false
  end.

(** [typeof v === 'string'], [undefined] included. *)
Definition isStringValue (v : option value) : bool :=
  match v with
  | Some (Str _) => true
  | _ => false
  end.

(** [typeof v === 'boolean'], [undefined] included. *)
Definition isBooleanValue (v : option value) : bool :=
  match v with
  | Some (Bool _) => true
  | _ => false
  end.

End Json.

(** The raw value handed to [deserialize] ([text: unknown]): the storage
    area holds either nothing, [null], or the string that [serialize]
    wrote.  Other kinds of value are not represented. *)
Inductive Persisted : Type :=
| Undefined
| NullValue
| Text (textStr : string).

(** The filter of the "new format" branch. *)
Definition isEntry (item : Json.value) : bool :=
  Json.isObjectLike item &&
  Json.isStringValue (Json.member "domain" item) &&
  Json.isBooleanValue (Json.member "enabled" item).

(** [{ domain, enabled: true }] of the migration branch. *)
Definition migrate (d : Json.value) : Json.value :=
  Json.Object [("domain", d); ("enabled", Json.Bool true)].

Section Deserialize.

(** [JSON.parse]: [None] when it throws. *)
Variable JSON_parse : string -> option Json.value.

Definition deserialize (text : Persisted) : list Json.value :=
  match text with
  | Undefined | NullValue => []
  | Text textStr =>
      if (textStr =? "undefined")%string || (textStr =? "null")%string
         || (Js.trim textStr =? "")%string
      then []
      else
        match JSON_parse textStr with
        | None => []
        | Some (Json.Array parsed) =>
            match parsed with
            | Json.Str _ :: _ => map migrate parsed
            | _ => filter isEntry parsed
            end
        | Some _ => []
        end
  end.

End Deserialize.

(** The typed reading [BlockedDomain] of a deserialized element: its
    [domain] and [enabled] members, when they have the declared types. *)
Definition asBlockedDomain (item : Json.value) : option BlockedDomain :=
  match Json.member "domain" item, Json.member "enabled" item with
  | Some (Json.Str d), Some (Json.Bool e) => Some (mkBlockedDomain d e)
  | _, _ => None
  end.

(** The typed reading [BlockedDomain[]] of a deserialized value; [None] when
    an element does not have the declared type. *)
Fixpoint asStore (items : list Json.value) : option Store :=
  match items with
  | [] => Some []
  | item :: rest =>
      match asBlockedDomain item, asStore rest with
      | Some e, Some es => Some (e :: es)
      | _, _ => None
      end
  end.

(* ================================================================== *)
(** ** A reference JSON reader

    [deserialize] is stated for any [JSON.parse].  The reader below follows
    the JSON grammar on the 8-bit fragment and is what the examples run:
    white space, the three literals, numbers (kept as lexemes), strings
    with their escapes, arrays and objects (a repeated key keeps its last
    value).  An escape [\uXXXX] above [\u00FF] names a code unit
    outside the fragment and is not accepted here. *)

Module JsonReader.

Import Json.

Definition dquote : ascii := ascii_of_nat 34.
Definition backslash : ascii := ascii_of_nat 92.

Definition isWs (c : ascii) : bool :=
  let n := nat_of_ascii c in
  ((n =? 32) || (n =? 9) || (n =? 10) || (n =? 13))%nat.

Fixpoint skipWs (s : string) : string :=
  match s with
  | String c r => if isWs c then skipWs r else s
  | EmptyString => EmptyString
  end.

Definition hexDigit (c : ascii) : option nat :=
  let n := nat_of_ascii c in
  if ((48 <=? n) && (n <=? 57))%nat then Some (n - 48)
  else if ((97 <=? n) && (n <=? 102))%nat then Some (n - 87)
  else if ((65 <=? n) && (n <=? 70))%nat then Some (n - 55)
  else None.

(** The character an escape letter stands for. *)
Definition simpleEscape (e : ascii) : option ascii :=
  if Ascii.eqb e dquote then Some dquote
  else if Ascii.eqb e backslash then Some backslash
  else if Ascii.eqb e "/" then Some "/"%char
  else if Ascii.eqb e "b" then Some (ascii_of_nat 8)
  else if Ascii.eqb e "f" then Some (ascii_of_nat 12)
  else if Ascii.eqb e "n" then Some (ascii_of_nat 10)
  else if Ascii.eqb e "r" then Some (ascii_of_nat 13)
  else if Ascii.eqb e "t" then Some (ascii_of_nat 9)
  else None.

Definition consTo (c : ascii) (r : option (string * string)) : option (string * string) :=
  match r with
  | Some (body, rest) => Some (String c body, rest)
  | None => None
  end.

(** The characters of a string literal after its opening quote, and the
    text after its closing quote. *)
Fixpoint readChars (s : string) : option (string * string) :=
  match s with
  | EmptyString => None
  | String c r =>
      if Ascii.eqb c dquote then Some (EmptyString, r)
      else if Ascii.eqb c backslash then
        match r with
        | String e r1 =>
            if Ascii.eqb e "u" then
              match r1 with
              | String h1 (String h2 (String h3 (String h4 r2))) =>
                  match hexDigit h1, hexDigit h2, hexDigit h3, hexDigit h4 with
                  | Some 0, Some 0, Some d3, Some d4 =>
                      consTo (ascii_of_nat (16 * d3 + d4)) (readChars r2)
                  | _, _, _, _ => None
                  end
              | _ => None
              end
            else
              match simpleEscape e with
              | Some x => consTo x (readChars r1)
              | None => None
              end
        | EmptyString => None
        end
      else if (nat_of_ascii c <? 32)%nat then None
      else consTo c (readChars r)
  end.

Fixpoint takeDigits (s : string) : string * string :=
  match s with
  | String c r =>
      if isDigit c then let (ds, rest) := takeDigits r in (String c ds, rest)
      else (EmptyString, s)
  | EmptyString => (EmptyString, EmptyString)
  end.

(** A number: an optional minus, an integer part without a leading zero
    (or a lone zero), an optional fraction and an optional exponent. *)
Definition readNumber (s : string) : option (string * string) :=
  let (sign, s1) :=
    match s with
    | String "-" r => ("-"%string, r)
    | _ => (EmptyString, s)
    end in
  let (int, s2) := takeDigits s1 in
  let intOk :=
    match int with
    | EmptyString => false
    | String "0" (String _ _) => false
    | _ => true
    end in
  if negb intOk then None
  else
    let fracPart :=
      match s2 with
      | String "." r =>
          let (ds, rest) := takeDigits r in
          match ds with
          | EmptyString => None
          | _ => Some (("." ++ ds)%string, rest)
          end
      | _ => Some (EmptyString, s2)
      end in
    match fracPart with
    | None => None
    | Some (frac, s3) =>
        let expPart :=
          match s3 with
          | String e r =>
              if Ascii.eqb e "e" || Ascii.eqb e "E" then
                let (esign, r1) :=
                  match r with
                  | String "+" r' => ("+"%string, r')
                  | String "-" r' => ("-"%string, r')
                  | _ => (EmptyString, r)
                  end in
                let (ds, rest) := takeDigits r1 in
                match ds with
                | EmptyString => None
                | _ => Some ((String e esign ++ ds)%string, rest)
                end
              else Some (EmptyString, s3)
          | EmptyString => Some (EmptyString, s3)
          end in
        match expPart with
        | None => None
        | Some (ex, s4) => Some ((sign ++ int ++ frac ++ ex)%string, s4)
        end
    end.

(** Defining a property: a key already present takes the new value. *)
Fixpoint setMember (key : string) (v : value) (members : list (string * value))
  : list (string * value) :=
  match members with
  | [] => [(key, v)]
  | (k, w) :: rest =>
      if (k =? key)%string then (k, v) :: rest
      else (k, w) :: setMember key v rest
  end.

Definition objectOf (pairs : list (string * value)) : value :=
  Object (fold_left (fun acc kv => setMember (fst kv) (snd kv) acc) pairs []).

Fixpoint readValue (fuel : nat) (s : string) {struct fuel} : option (value * string) :=
  match fuel with
  | O => None
  | S fuel' =>
      match skipWs s with
      | EmptyString => None
      | String c r =>
          if Ascii.eqb c "[" then
            match skipWs r with
            | String "]" r' => Some (Array [], r')
            | _ =>
                match readElements fuel' r with
                | Some (items, r') => Some (Array items, r')
                | None => None
                end
            end
          else if Ascii.eqb c "{" then
            match skipWs r with
            | String "}" r' => Some (Object [], r')
            | _ =>
                match readMembers fuel' r with
                | Some (pairs, r') => Some (objectOf pairs, r')
                | None => None
                end
            end
          else if Ascii.eqb c dquote then
            match readChars r with
            | Some (body, r') => Some (Str body, r')
            | None => None
            end
          else
            match Js.stripPrefix "true" (String c r),
                  Js.stripPrefix "false" (String c r),
                  Js.stripPrefix "null" (String c r) with
            | Some r', _, _ => Some (Bool true, r')
            | _, Some r', _ => Some (Bool false, r')
            | _, _, Some r' => Some (Null, r')
            | None, None, None =>
                match readNumber (String c r) with
                | Some (lexeme, r') => Some (Number lexeme, r')
                | None => None
                end
            end
      end
  end
with readElements (fuel : nat) (s : string) {struct fuel} : option (list value * string) :=
  match fuel with
  | O => None
  | S fuel' =>
      match readValue fuel' s with
      | None => None
      | Some (v, r) =>
          match skipWs r with
          | String c r' =>
              if Ascii.eqb c "," then
                match readElements fuel' r' with
                | Some (vs, r'') => Some (v :: vs, r'')
                | None => None
                end
              else if Ascii.eqb c "]" then Some ([v], r')
              else None
          | EmptyString => None
          end
      end
  end
with readMembers (fuel : nat) (s : string) {struct fuel}
  : option (list (string * value) * string) :=
  match fuel with
  | O => None
  | S fuel' =>
      match skipWs s with
      | String q r =>
          if Ascii.eqb q dquote then
            match readChars r with
            | None => None
            | Some (key, r1) =>
                match skipWs r1 with
                | String ":" r2 =>
                    match readValue fuel' r2 with
                    | None => None
                    | Some (v, r3) =>
                        match skipWs r3 with
                        | String c r4 =>
                            if Ascii.eqb c "," then
                              match readMembers fuel' r4 with
                              | Some (kvs, r5) => Some ((key, v) :: kvs, r5)
                              | None => None
                              end
                            else if Ascii.eqb c "}" then Some ([(key, v)], r4)
                            else None
                        | EmptyString => None
                        end
                    end
                | _ => None
                end
            end
          else None
      | EmptyString => None
      end
  end.

(** One value, white space around it, and nothing else.  Each call of the
    reader consumes a character, so the length bounds the recursion. *)
Definition parse (text : string) : option value :=
  match readValue (2 * String.length text + 2) text with
  | Some (v, rest) =>
      match skipWs rest with
      | EmptyString => Some v
      | _ => None
      end
  | None => None
  end.

(** Writing of JSON texts in this file: an apostrophe stands for the
    double quote. *)
Fixpoint js (s : string) : string :=
  match s with
  | EmptyString => EmptyString
  | String c r => String (if Ascii.eqb c "'" then dquote else c) (js r)
  end.

End JsonReader.

(* ================================================================== *)
(** ** Navigation guard (the background script) *)

(** What an evaluation does to the outside world, in order. *)
Inductive Effect : Type :=
| StorageRead                               (* storage.get() inside isBlocked *)
| TabsUpdate (tabId : Z) (url : string)     (* chrome.tabs.update(tabId, {url}) *)
| ConsoleError.                             (* console.error in the catch *)

(** [details] of a committed navigation. *)
Record NavigationDetails : Type := mkNavigationDetails {
  frameId : Z;
  detailsUrl : string;
  detailsTabId : Z
}.

(** [changeInfo] and [tab] of a tab update, as far as the listener reads
    them. *)
Record ChangeInfo : Type := mkChangeInfo {
  status : option string
}.

Record Tab : Type := mkTab {
  tabUrl : option string
}.

Section Background.

(** [new URL(url).hostname]: [None] when the constructor throws. *)
Variable URL_hostname : string -> option string.

(** The extension's id, which fixes its origin. *)
Variable extensionId : string.

(** [chrome.runtime.getURL(path)]. *)
Definition getURL (path : string) : string :=
  ("chrome-extension://" ++ extensionId ++ "/" ++ path)%string.

(** The exclusion test at the head of [checkAndBlockDomain]. *)
Definition skipped (url : string) : bool :=
  Js.startsWith "chrome://" url ||
  Js.startsWith "chrome-extension://" url ||
  Js.startsWith "about:" url ||
  Js.includes "blocked.html" url.

Definition checkAndBlockDomain (url : string) (tabId : Z) (current : Store)
  : list Effect :=
  if skipped url then []
  else
    match URL_hostname url with
    | None => [ConsoleError]
    | Some hostname =>
        let domain := normalizeDomain hostname in
        match blockedDomainsStorage.isBlocked domain current with
        | (inr isBlocked, _) =>
            StorageRead ::
            (if isBlocked then [TabsUpdate tabId (getURL "blocked.html")]
             else [])
        | (inl _, _) => [StorageRead; ConsoleError]
        end
    end.

(** The listener of [chrome.webNavigation.onCommitted].  It is registered
    with a filter on the schemes [http] and [https]; the filter decides
    which events reach the listener and is not part of its body. *)
Definition onCommitted (details : NavigationDetails) (current : Store)
  : list Effect :=
  if (frameId details =? 0)%Z
  then checkAndBlockDomain (detailsUrl details) (detailsTabId details) current
  else [].

(** The listener of [chrome.tabs.onUpdated]:
    [changeInfo.status === 'loading' && tab.url]. *)
Definition onUpdated (tabId : Z) (changeInfo : ChangeInfo) (tab : Tab)
  (current : Store) : list Effect :=
  match status changeInfo, tabUrl tab with
  | Some st, Some u =>
      if (st =? "loading")%string && negb (u =? "")%string
      then checkAndBlockDomain u tabId current
      else []
  | _, _ => []
  end.

End Background.

(** A stand-in for [new URL(u).hostname] on the URLs the examples use: an
    [http://] or [https://] URL whose authority is a host name written
    with lower-case letters, digits, hyphens and dots, followed by nothing
    or by a path.  It answers [None] on everything else.  The theorems do
    not depend on it. *)
Module UrlReader.

Definition isHostChar (c : ascii) : bool :=
  let n := nat_of_ascii c in
  (((97 <=? n) && (n <=? 122)) || ((48 <=? n) && (n <=? 57))
   || (n =? 45) || (n =? 46))%nat.

Fixpoint allHostChars (s : string) : bool :=
  match s with
  | EmptyString => true
  | String c r => isHostChar c && allHostChars r
  end.

Definition hostname (url : string) : option string :=
  let authority (rest : string) :=
    let host := firstSegment rest in
    if negb (host =? "")%string && allHostChars host then Some host else None in
  match Js.stripPrefix "https://" url, Js.stripPrefix "http://" url with
  | Some rest, _ => authority rest
  | None, Some rest => authority rest
  | None, None => None
  end.

End UrlReader.

(** Sequencing of two store operations: the second runs on the collection
    the first left, unless the first was rejected. *)
Definition andThen {A B : Type} (p : Promise A) (k : A -> Promise B) : Promise B :=
  fun current =>
    match p current with
    | (inl e, next) => (inl e, next)
    | (inr a, next) => k a next
    end.

(* ================================================================== *)
(** ** Canonical form, in the words of the data model *)

(** Every character of [s] satisfies [p]. *)
Fixpoint allChars (p : ascii -> bool) (s : string) : bool :=
  match s with
  | EmptyString => true
  | String c r => p c && allChars p r
  end.

(** Lower-casing leaves the character as it is. *)
Definition fixedByLower (c : ascii) : bool := Ascii.eqb (Js.lowerChar c) c.

Definition notSlash (c : ascii) : bool := negb (Ascii.eqb c "/").

Definition lowercase (d : string) : Prop := Js.toLowerCase d = d.

Definition noScheme (d : string) : Prop :=
  Js.startsWith "http://" d = false /\ Js.startsWith "https://" d = false.

Definition noWww (d : string) : Prop := Js.startsWith "www." d = false.

Definition noPath (d : string) : Prop := Js.includes "/" d = false.

Definition noTrailingSlash (d : string) : Prop := Js.endsWith "/" d = false.

(** Canonical form as the data model words it. *)
Definition canonical (d : string) : Prop :=
  lowercase d /\ noScheme d /\ noWww d /\ noPath d /\ noTrailingSlash d.

(** Canonical form without the clause on the [www.] label. *)
Definition tidy (d : string) : Prop :=
  lowercase d /\ noScheme d /\ noPath d /\ noTrailingSlash d.

(** At most one entry per domain value. *)
Definition uniqueDomains (s : Store) : Prop := NoDup (map domain s).

(** Some entry of the collection has exactly this domain. *)
Definition present (dom : string) (s : Store) : Prop :=
  exists e, In e s /\ domain e = dom.

(* ================================================================== *)
(** ** The language of a regular expression *)

Module RegexLang.

Import Regex.

(** The strings a pattern matches as a whole. *)
Inductive lang : regex -> string -> Prop :=
| lang_eps : lang Eps EmptyString
| lang_class (p : ascii -> bool) (c : ascii) :
    p c = true -> lang (Class p) (String c EmptyString)
| lang_cat (a b : regex) (s t : string) :
    lang a s -> lang b t -> lang (Cat a b) (s ++ t)%string
| lang_alt_l (a b : regex) (s : string) : lang a s -> lang (Alt a b) s
| lang_alt_r (a b : regex) (s : string) : lang b s -> lang (Alt a b) s
| lang_star_nil (a : regex) : lang (Star a) EmptyString
| lang_star_cons (a : regex) (s t : string) :
    lang a s -> lang (Star a) t -> lang (Star a) (s ++ t)%string.

End RegexLang.

(** The shape of a valid domain, label by label.  A label before the last
    has 1 to 63 letters, digits and hyphens and has no hyphen at either
    end; the last label has 2 to 63 letters. *)
Definition isLabel (l : string) : bool :=
  (1 <=? String.length l)%nat && (String.length l <=? 63)%nat &&
  allChars isAlnumHyphen l &&
  negb (Js.startsWith "-" l) && negb (Js.endsWith "-" l).

Definition isTld (t : string) : bool :=
  (2 <=? String.length t)%nat && (String.length t <=? 63)%nat &&
  allChars isAlpha t.

(** The labels, each followed by a dot. *)
Fixpoint dotted (labels : list string) : string :=
  match labels with
  | [] => EmptyString
  | l :: rest => (l ++ "." ++ dotted rest)%string
  end.

(** A character that can occur in a valid domain. *)
Definition isDomainChar (c : ascii) : bool := isAlnumHyphen c || isDot c.

(** The domain value an operation is about: [add] works on the normalized
    form of its argument, [remove] and [toggle] on the argument as given. *)
Definition target (op : Op) : string :=
  match op with
  | Add rawDomain => normalizeDomain rawDomain
  | Remove dom => dom
  | Toggle dom => dom
  end.

(* ================================================================== *)
(** ** A reference JSON writer and the serialization hook

    [JSON.stringify] on the values the store holds: arrays of objects with
    a string [domain] and a boolean [enabled].  Each function writes its
    text in front of the text [rest] that follows.  In a string, the
    quote, the backslash and the control characters are escaped, the other
    code units are written as they are. *)

Module JsonWriter.

Definition hexChar (n : nat) : ascii :=
  if (n <? 10)%nat then ascii_of_nat (48 + n) else ascii_of_nat (87 + n).

Definition escapeChar (c : ascii) : string :=
  let n := nat_of_ascii c in
  let esc (e : ascii) := String JsonReader.backslash (String e EmptyString) in
  if Ascii.eqb c JsonReader.dquote then esc JsonReader.dquote
  else if Ascii.eqb c JsonReader.backslash then esc JsonReader.backslash
  else if (n =? 8)%nat then esc "b"%char
  else if (n =? 9)%nat then esc "t"%char
  else if (n =? 10)%nat then esc "n"%char
  else if (n =? 12)%nat then esc "f"%char
  else if (n =? 13)%nat then esc "r"%char
  else if (n <? 32)%nat then
    String JsonReader.backslash
      (String "u" (String "0" (String "0"
         (String (hexChar (n / 16)) (String (hexChar (n mod 16)) EmptyString)))))
  else String c EmptyString.

Fixpoint escaped (s rest : string) : string :=
  match s with
  | EmptyString => rest
  | String c r => (escapeChar c ++ escaped r rest)%string
  end.

Definition quoted (s rest : string) : string :=
  String JsonReader.dquote (escaped s (String JsonReader.dquote rest)).

Definition boolean (b : bool) (rest : string) : string :=
  ((if b then "true" else "false") ++ rest)%string.

(** [{"domain":...,"enabled":...}] *)
Definition entry (e : BlockedDomain) (rest : string) : string :=
  String "{" (quoted "domain" (String ":" (quoted (domain e)
    (String "," (quoted "enabled" (String ":" (boolean (enabled e)
      (String "}" rest)))))))).

Fixpoint entries (l : list BlockedDomain) (rest : string) : string :=
  match l with
  | [] => rest
  | e :: l' =>
      entry e (match l' with
               | [] => rest
               | _ :: _ => String "," (entries l' rest)
               end)
  end.

Definition stringify (value : Store) : string :=
  String "[" (entries value "]").

End JsonWriter.

(** [serialize: (value: BlockedDomain[]) => JSON.stringify(value)]. *)
Definition serialize (value : Store) : string := JsonWriter.stringify value.

(** The JSON value of an entry. *)
Definition entryValue (e : BlockedDomain) : Json.value :=
  Json.Object [("domain", Json.Str (domain e)); ("enabled", Json.Bool (enabled e))].

(** The effects an evaluation for tab [tabId] can have, as whole traces. *)
Definition guardOutcomes (extensionId : string) (tabId : Z) : list (list Effect) :=
  [ [];
    [ConsoleError];
    [StorageRead];
    [StorageRead; TabsUpdate tabId (getURL extensionId "blocked.html")] ].

(* ================================================================== *)
(** ** The popup's handlers

    The popup keeps the text of its input and an error message; the
    handlers are modelled as functions from that state and the persisted
    collection to the next state and collection.  [blockedDomains] is the
    snapshot of the collection that the popup displays. *)

Module Popup.

Record State : Type := mkState {
  domainInput : string;
  error : option string
}.

(** A [string | null] used as a condition: [null] and the empty string are
    falsy. *)
Definition truthy (v : option string) : bool :=
  match v with
  | Some s => negb (s =? "")%string
  | None => false
  end.

(** [blockedDomains.filter(d => d.enabled).length] *)
Definition enabledCount (blockedDomains : Store) : nat :=
  List.length (filter enabled blockedDomains).

Section Handlers.

(** The message lookup [t] of the i18n package. *)
Variable t : string -> string.

(** The [useMemo] of the real-time validation. *)
Definition validationError (domainInput : string) (blockedDomains : Store)
  : option string :=
  if (Js.trim domainInput =? "")%string then None
  else
    let normalized := normalizeDomain domainInput in
    if existsb (fun d => (domain d =? normalized)%string) blockedDomains
    then Some (t "domainExists")
    else if negb (isValidDomain normalized) then Some (t "invalidDomain")
    else None.

(** The message set in the [catch] blocks. *)
Definition messageOf (err : Error) : string :=
  match err with
  | mkError message =>
      if (message =? "Invalid domain format")%string then t "invalidDomain"
      else if (message =? "Domain already exists")%string then t "domainExists"
      else message
  end.

Definition handleAddDomain (st : State) (blockedDomains : Store)
  (current : Store) : State * Store :=
  if (Js.trim (domainInput st) =? "")%string then (st, current)
  else
    let validation := validationError (domainInput st) blockedDomains in
    if truthy validation
    then (mkState (domainInput st) validation, current)
    else
      match blockedDomainsStorage.add (domainInput st) current with
      | (inr _, next) => (mkState EmptyString None, next)
      | (inl err, next) => (mkState (domainInput st) (Some (messageOf err)), next)
      end.

Definition handleRemoveDomain (dom : string) : Promise unit :=
  blockedDomainsStorage.remove dom.

Definition handleToggleDomain (dom : string) : Promise unit :=
  blockedDomainsStorage.toggle dom.

(** [activeTab] is the first element of the result of [chrome.tabs.query],
    [None] when there is none (reading its [url] then throws, and the outer
    [catch] reports it). *)
Definition handleAddCurrentPage (st : State) (activeTab : option Tab)
  (current : Store) : State * Store :=
  let cannot := (mkState (domainInput st) (Some (t "cannotBlockCurrentPage")), current) in
  match activeTab with
  | None => cannot
  | Some tab =>
      match tabUrl tab with
      | None => cannot
      | Some url =>
          if (url =? "")%string then cannot
          else if Js.startsWith "chrome://" url
                  || Js.startsWith "chrome-extension://" url
                  || Js.startsWith "about:" url
          then cannot
          else
            match blockedDomainsStorage.add url current with
            | (inr _, next) => (mkState (domainInput st) None, next)
            | (inl err, next) =>
                (mkState (domainInput st) (Some (messageOf err)), next)
            end
      end
  end.

End Handlers.

End Popup.

(* ================================================================== *)
(** * Facts about the string primitives *)

Section StringFacts.

Lemma lowerChar_idempotent (c : ascii) : Js.lowerChar (Js.lowerChar c) = Js.lowerChar c.
Proof.
  destruct c as [[] [] [] [] [] [] [] []]; reflexivity.
Qed.

Lemma toLowerCase_idempotent (s : string) :
  Js.toLowerCase (Js.toLowerCase s) = Js.toLowerCase s.
Proof.
  induction s as [|c r IH]; simpl; [reflexivity|].
  now rewrite lowerChar_idempotent, IH.
Qed.

Lemma toLowerCase_length (s : string) :
  String.length (Js.toLowerCase s) = String.length s.
Proof.
  induction s as [|c r IH]; simpl; congruence.
Qed.

Lemma lowercase_allChars (s : string) :
  lowercase s <-> allChars fixedByLower s = true.
Proof.
  unfold lowercase, fixedByLower.
  induction s as [|c r IH]; simpl.
  - split; reflexivity.
  - rewrite andb_true_iff, Ascii.eqb_eq, <- IH. split.
    + intros H. injection H as Hc Hr. now split.
    + intros [Hc Hr]. now rewrite Hc, Hr.
Qed.

Lemma toLowerCase_lowercase (s : string) : lowercase (Js.toLowerCase s).
Proof. apply toLowerCase_idempotent. Qed.

Lemma startsWith_empty (s : string) : Js.startsWith EmptyString s = true.
Proof. destruct s; reflexivity. Qed.

Lemma startsWith_cons (a b : ascii) (p s : string) :
  Js.startsWith (String a p) (String b s) =
  if Ascii.eqb a b then Js.startsWith p s else false.
Proof.
  unfold Js.startsWith. cbn [String.prefix].
  destruct (Ascii.ascii_dec a b) as [->|Hne].
  - now rewrite Ascii.eqb_refl.
  - apply Ascii.eqb_neq in Hne. now rewrite Hne.
Qed.

Lemma noPath_allChars (s : string) :
  noPath s <-> allChars notSlash s = true.
Proof.
  unfold noPath, notSlash.
  induction s as [|c r IH]; cbn [Js.includes allChars].
  - split; reflexivity.
  - rewrite startsWith_cons, startsWith_empty, Ascii.eqb_sym.
    destruct (Ascii.eqb c "/"); simpl; [split; discriminate|exact IH].
Qed.

(** A literal prefix and what follows it. *)
Lemma stripPrefix_append (p s r : string) :
  Js.stripPrefix p s = Some r -> s = (p ++ r)%string.
Proof.
  revert s. induction p as [|a p IH]; intros s H; simpl in *.
  - congruence.
  - destruct s as [|b s]; [discriminate|].
    destruct (Ascii.eqb a b) eqn:E; [|discriminate].
    apply Ascii.eqb_eq in E. subst b. now rewrite (IH _ H).
Qed.

Lemma stripPrefix_startsWith (p s : string) :
  Js.startsWith p s = match Js.stripPrefix p s with Some _ => true | None => false end.
Proof.
  revert s.
  induction p as [|a p IH]; intros s.
  - apply startsWith_empty.
  - destruct s as [|b s]; [reflexivity|].
    rewrite startsWith_cons. cbn [Js.stripPrefix].
    destruct (Ascii.eqb a b); [apply IH|reflexivity].
Qed.

Lemma stripPrefix_length (p s r : string) :
  Js.stripPrefix p s = Some r ->
  String.length s = String.length p + String.length r.
Proof.
  intros H. apply stripPrefix_append in H. subst s.
  induction p as [|a p IH]; simpl; congruence.
Qed.

Lemma allChars_append (q : ascii -> bool) (a b : string) :
  allChars q (a ++ b)%string = allChars q a && allChars q b.
Proof.
  induction a as [|c a IH]; simpl; [reflexivity|].
  now rewrite IH, andb_assoc.
Qed.

Lemma allChars_stripPrefix (q : ascii -> bool) (p s r : string) :
  Js.stripPrefix p s = Some r -> allChars q s = true -> allChars q r = true.
Proof.
  intros H Hs. apply stripPrefix_append in H. subst s.
  rewrite allChars_append in Hs. now apply andb_true_iff in Hs.
Qed.

(** A prefix with a character outside [q] cannot start a string whose
    characters are all in [q]. *)
Lemma allChars_no_prefix (q : ascii -> bool) (p s : string) :
  allChars q p = false -> allChars q s = true -> Js.stripPrefix p s = None.
Proof.
  intros Hp Hs. destruct (Js.stripPrefix p s) as [r|] eqn:E; [|reflexivity].
  apply stripPrefix_append in E. subst s.
  rewrite allChars_append, Hp in Hs. discriminate.
Qed.

Lemma allChars_trimStart (q : ascii -> bool) (s : string) :
  allChars q s = true -> allChars q (Js.trimStart s) = true.
Proof.
  induction s as [|c r IH]; simpl; [reflexivity|].
  intros H. destruct (Js.isWhiteSpace c); [|exact H].
  apply andb_true_iff in H. now apply IH.
Qed.

Lemma allChars_trimEnd (q : ascii -> bool) (s : string) :
  allChars q s = true -> allChars q (Js.trimEnd s) = true.
Proof.
  induction s as [|c r IH]; simpl; [reflexivity|].
  intros H. apply andb_true_iff in H. destruct H as [Hc Hr].
  specialize (IH Hr). destruct (Js.trimEnd r) as [|c' r'].
  - destruct (Js.isWhiteSpace c); simpl; [reflexivity|now rewrite Hc].
  - simpl in *. now rewrite Hc.
Qed.

Lemma allChars_replaceTrailingSlash (q : ascii -> bool) (s : string) :
  allChars q s = true -> allChars q (replaceTrailingSlash s) = true.
Proof.
  induction s as [|c r IH]; [reflexivity|].
  intros H. simpl in H. apply andb_true_iff in H. destruct H as [Hc Hr].
  destruct r as [|c' r'].
  - simpl. destruct (Ascii.eqb c "/"); simpl; [reflexivity|now rewrite Hc].
  - change (replaceTrailingSlash (String c (String c' r')))
      with (String c (replaceTrailingSlash (String c' r'))).
    cbn [allChars]. rewrite Hc. now apply IH.
Qed.

Lemma split_nonempty (sep : ascii) (s : string) : Js.split sep s <> [].
Proof.
  destruct s as [|c r]; simpl; [discriminate|].
  destruct (Ascii.eqb c sep); [discriminate|].
  destruct (Js.split sep r); discriminate.
Qed.

Lemma firstSegment_cons (c : ascii) (r : string) :
  firstSegment (String c r) =
  if Ascii.eqb c "/" then EmptyString else String c (firstSegment r).
Proof.
  unfold firstSegment. simpl.
  destruct (Ascii.eqb c "/"); [reflexivity|].
  destruct (Js.split "/" r) eqn:E; [|reflexivity].
  now apply split_nonempty in E.
Qed.

Lemma allChars_firstSegment (q : ascii -> bool) (s : string) :
  allChars q s = true -> allChars q (firstSegment s) = true.
Proof.
  induction s as [|c r IH]; [reflexivity|].
  rewrite firstSegment_cons. simpl. intros H.
  apply andb_true_iff in H. destruct H as [Hc Hr].
  destruct (Ascii.eqb c "/"); simpl; [reflexivity|].
  rewrite Hc. now apply IH.
Qed.

Lemma firstSegment_noSlash (s : string) :
  allChars notSlash (firstSegment s) = true.
Proof.
  induction s as [|c r IH]; [reflexivity|].
  rewrite firstSegment_cons.
  destruct (Ascii.eqb c "/") eqn:E; cbn [allChars]; [reflexivity|].
  unfold notSlash at 1. now rewrite E.
Qed.

Lemma firstSegment_fixed (s : string) :
  allChars notSlash s = true -> firstSegment s = s.
Proof.
  induction s as [|c r IH]; [reflexivity|].
  rewrite firstSegment_cons. cbn [allChars]. unfold notSlash at 1. intros H.
  apply andb_true_iff in H. destruct H as [Hc Hr].
  destruct (Ascii.eqb c "/"); [discriminate|]. now rewrite IH.
Qed.

Lemma replaceTrailingSlash_fixed (s : string) :
  allChars notSlash s = true -> replaceTrailingSlash s = s.
Proof.
  induction s as [|c r IH]; [reflexivity|].
  cbn [allChars]. unfold notSlash at 1. intros H.
  apply andb_true_iff in H. destruct H as [Hc Hr].
  destruct r as [|c' r'].
  - simpl. now destruct (Ascii.eqb c "/").
  - change (replaceTrailingSlash (String c (String c' r')))
      with (String c (replaceTrailingSlash (String c' r'))).
    now rewrite IH.
Qed.

End StringFacts.

(* ================================================================== *)
(** * Facts about [normalizeDomain] *)

Section NormalizeFacts.

(** Every step after the lower-casing keeps a property of all characters. *)
Lemma allChars_replaceScheme (q : ascii -> bool) (s : string) :
  allChars q s = true -> allChars q (replaceScheme s) = true.
Proof.
  intros H. unfold replaceScheme.
  destruct (Js.stripPrefix "https://" s) eqn:E1;
    [now apply (allChars_stripPrefix q _ _ _ E1)|].
  destruct (Js.stripPrefix "http://" s) eqn:E2;
    [now apply (allChars_stripPrefix q _ _ _ E2)|exact H].
Qed.

Lemma allChars_replaceWww (q : ascii -> bool) (s : string) :
  allChars q s = true -> allChars q (replaceWww s) = true.
Proof.
  intros H. unfold replaceWww.
  destruct (Js.stripPrefix "www." s) eqn:E;
    [now apply (allChars_stripPrefix q _ _ _ E)|exact H].
Qed.

Lemma normalizeDomain_lowercase (x : string) : lowercase (normalizeDomain x).
Proof.
  apply lowercase_allChars. unfold normalizeDomain.
  apply allChars_firstSegment, allChars_replaceTrailingSlash,
    allChars_replaceWww, allChars_replaceScheme.
  apply lowercase_allChars, toLowerCase_lowercase.
Qed.

Lemma normalizeDomain_noSlash (x : string) :
  allChars notSlash (normalizeDomain x) = true.
Proof. apply firstSegment_noSlash. Qed.

Lemma noSlash_noScheme (d : string) :
  allChars notSlash d = true -> noScheme d.
Proof.
  intros H. unfold noScheme. rewrite !stripPrefix_startsWith.
  rewrite (allChars_no_prefix notSlash "http://" d), (allChars_no_prefix notSlash "https://" d);
    auto.
Qed.

Lemma noSlash_noTrailingSlash (d : string) :
  allChars notSlash d = true -> noTrailingSlash d.
Proof.
  unfold noTrailingSlash.
  induction d as [|c r IH]; [reflexivity|].
  cbn [allChars Js.endsWith]. unfold notSlash at 1. intros H.
  apply andb_true_iff in H. destruct H as [Hc Hr].
  rewrite (IH Hr), orb_false_r.
  apply String.eqb_neq. intros E. injection E as -> _. discriminate.
Qed.

(** The output of [normalizeDomain] is lower-case and free of slashes, hence
    without scheme, path or trailing slash. *)
Lemma normalizeDomain_tidy (x : string) : tidy (normalizeDomain x).
Proof.
  pose proof (normalizeDomain_noSlash x) as H.
  repeat split.
  - apply normalizeDomain_lowercase.
  - now apply noSlash_noScheme.
  - now apply noSlash_noScheme.
  - now apply noPath_allChars.
  - now apply noSlash_noTrailingSlash.
Qed.

(** Each step returns its argument or something shorter. *)
Lemma trimStart_shrinks (s : string) :
  Js.trimStart s = s \/ String.length (Js.trimStart s) < String.length s.
Proof.
  induction s as [|c r IH]; simpl; [now left|].
  destruct (Js.isWhiteSpace c); [|now left].
  right. destruct IH as [->|IH]; lia.
Qed.

Lemma trimEnd_shrinks (s : string) :
  Js.trimEnd s = s \/ String.length (Js.trimEnd s) < String.length s.
Proof.
  induction s as [|c r IH]; simpl; [now left|].
  destruct (Js.trimEnd r) as [|c' r'] eqn:E.
  - destruct (Js.isWhiteSpace c); simpl; [right; lia|].
    destruct IH as [<-|IH]; [now left|right; simpl in *; lia].
  - destruct IH as [<-|IH]; [now left|right; simpl in *; lia].
Qed.

Lemma trim_shrinks (s : string) :
  Js.trim s = s \/ String.length (Js.trim s) < String.length s.
Proof.
  unfold Js.trim.
  destruct (trimStart_shrinks s) as [E|H], (trimEnd_shrinks (Js.trimStart s)) as [E'|H'].
  - left. congruence.
  - right. rewrite E in *. lia.
  - right. rewrite E'. lia.
  - right. lia.
Qed.

Lemma replaceScheme_shrinks (s : string) :
  replaceScheme s = s \/ String.length (replaceScheme s) < String.length s.
Proof.
  unfold replaceScheme.
  destruct (Js.stripPrefix "https://" s) eqn:E1.
  { right. apply stripPrefix_length in E1. simpl in E1. lia. }
  destruct (Js.stripPrefix "http://" s) eqn:E2.
  { right. apply stripPrefix_length in E2. simpl in E2. lia. }
  now left.
Qed.

Lemma replaceWww_shrinks (s : string) :
  (replaceWww s = s /\ Js.startsWith "www." s = false) \/
  String.length (replaceWww s) < String.length s.
Proof.
  unfold replaceWww. rewrite stripPrefix_startsWith.
  destruct (Js.stripPrefix "www." s) eqn:E.
  - right. apply stripPrefix_length in E. simpl in E. lia.
  - now left.
Qed.

Lemma replaceTrailingSlash_shrinks (s : string) :
  String.length (replaceTrailingSlash s) <= String.length s.
Proof.
  induction s as [|c r IH]; [simpl; lia|].
  destruct r as [|c' r'].
  - simpl. destruct (Ascii.eqb c "/"); simpl; lia.
  - change (replaceTrailingSlash (String c (String c' r')))
      with (String c (replaceTrailingSlash (String c' r'))).
    cbn [String.length] in *. lia.
Qed.

Lemma firstSegment_shrinks (s : string) :
  String.length (firstSegment s) <= String.length s.
Proof.
  induction s as [|c r IH]; [simpl; lia|].
  rewrite firstSegment_cons. destruct (Ascii.eqb c "/"); simpl; lia.
Qed.

(** On a string that is already trimmed, lower-case and free of slashes,
    only the [www.] step can still act. *)
Lemma normalizeDomain_settled (y : string) :
  Js.trim y = y -> lowercase y -> allChars notSlash y = true ->
  normalizeDomain y = replaceWww y.
Proof.
  intros Ht Hl Hs. unfold normalizeDomain. rewrite Ht, Hl.
  assert (replaceScheme y = y) as ->.
  { unfold replaceScheme.
    rewrite (allChars_no_prefix notSlash "https://" y), (allChars_no_prefix notSlash "http://" y);
      auto. }
  pose proof (allChars_replaceWww notSlash y Hs) as Hw.
  now rewrite (replaceTrailingSlash_fixed _ Hw), (firstSegment_fixed _ Hw).
Qed.

Lemma normalizeDomain_length (y : string) :
  String.length (normalizeDomain y) <= String.length (Js.trim y).
Proof.
  unfold normalizeDomain.
  pose proof (toLowerCase_length (Js.trim y)) as Hl.
  set (b := Js.toLowerCase (Js.trim y)) in *.
  pose proof (replaceScheme_shrinks b) as Hc.
  pose proof (replaceWww_shrinks (replaceScheme b)) as Hd.
  pose proof (replaceTrailingSlash_shrinks (replaceWww (replaceScheme b))) as He.
  pose proof (firstSegment_shrinks (replaceTrailingSlash (replaceWww (replaceScheme b)))) as Hf.
  destruct Hc as [Hc|Hc], Hd as [[Hd _]|Hd]; rewrite ?Hc, ?Hd in *; lia.
Qed.

(** A string is a fixed point of [normalizeDomain] exactly when it is
    trimmed, lower-case, free of slashes and does not start with [www.]. *)
Lemma normalizeDomain_fixed_iff (y : string) :
  normalizeDomain y = y <->
  Js.trim y = y /\ lowercase y /\ allChars notSlash y = true /\
  Js.startsWith "www." y = false.
Proof.
  split.
  - intros H.
    assert (Js.trim y = y) as Ht.
    { destruct (trim_shrinks y) as [E|Hlt]; [exact E|].
      pose proof (normalizeDomain_length y). rewrite H in *. lia. }
    assert (lowercase y) as Hl by (rewrite <- H; apply normalizeDomain_lowercase).
    assert (allChars notSlash y = true) as Hs
      by (rewrite <- H; apply normalizeDomain_noSlash).
    repeat split; auto.
    rewrite (normalizeDomain_settled y Ht Hl Hs) in H.
    destruct (replaceWww_shrinks y) as [[_ E]|Hlt]; [exact E|].
    rewrite H in Hlt. lia.
  - intros (Ht & Hl & Hs & Hw).
    rewrite (normalizeDomain_settled y Ht Hl Hs).
    unfold replaceWww. rewrite stripPrefix_startsWith in Hw.
    now destruct (Js.stripPrefix "www." y).
Qed.

End NormalizeFacts.

(* ================================================================== *)
(** * Facts about the block list store *)

Section StoreFacts.

Lemma existsb_present (dom : string) (s : Store) :
  existsb (fun d => (domain d =? dom)%string) s = true <-> present dom s.
Proof.
  unfold present. rewrite existsb_exists. split.
  - intros (e & Hin & He). apply String.eqb_eq in He. eauto.
  - intros (e & Hin & He). exists e. split; [exact Hin|]. now apply String.eqb_eq.
Qed.

Lemma present_map (dom : string) (s : Store) :
  present dom s <-> In dom (map domain s).
Proof.
  unfold present. rewrite in_map_iff. split; intros (e & H1 & H2); exists e; tauto.
Qed.

(** The three outcomes of [add]. *)
Lemma add_invalid (rawDomain : string) (current : Store) :
  normalizeDomain rawDomain = EmptyString \/
  isValidDomain (normalizeDomain rawDomain) = false ->
  blockedDomainsStorage.add rawDomain current = (inl InvalidFormat, current).
Proof.
  intros H. unfold blockedDomainsStorage.add.
  destruct H as [-> | ->]; [reflexivity|].
  now rewrite orb_true_r.
Qed.

Lemma add_valid (rawDomain : string) (current : Store) :
  normalizeDomain rawDomain <> EmptyString ->
  isValidDomain (normalizeDomain rawDomain) = true ->
  blockedDomainsStorage.add rawDomain current =
  if existsb (fun d => (domain d =? normalizeDomain rawDomain)%string) current
  then (inl DuplicateEntry, current)
  else (inr tt, current ++ [mkBlockedDomain (normalizeDomain rawDomain) true]).
Proof.
  intros Hne Hv. unfold blockedDomainsStorage.add, storage.set.
  apply String.eqb_neq in Hne. rewrite Hne, Hv. simpl.
  now destruct (existsb _ current).
Qed.

Lemma invalid_dec (n : string) :
  {n = EmptyString \/ isValidDomain n = false} +
  {n <> EmptyString /\ isValidDomain n = true}.
Proof.
  destruct (String.string_dec n EmptyString) as [E|E]; [left; now left|].
  destruct (isValidDomain n) eqn:V; [right; now split|left; now right].
Qed.

(** After [add], the collection is the old one, or the old one with the
    normalized domain appended, which was absent. *)
Lemma after_Add (rawDomain : string) (s : Store) :
  after (Add rawDomain) s = s \/
  (after (Add rawDomain) s = s ++ [mkBlockedDomain (normalizeDomain rawDomain) true] /\
   ~ present (normalizeDomain rawDomain) s).
Proof.
  unfold after, perform.
  destruct (invalid_dec (normalizeDomain rawDomain)) as [H|[H1 H2]].
  - left. now rewrite add_invalid.
  - rewrite (add_valid _ _ H1 H2).
    destruct (existsb _ s) eqn:E; [now left|right].
    split; [reflexivity|].
    rewrite <- existsb_present, E. discriminate.
Qed.

Lemma after_Remove (dom : string) (s : Store) :
  after (Remove dom) s = filter (fun d => negb (domain d =? dom)%string) s.
Proof. reflexivity. Qed.

Lemma after_Toggle (dom : string) (s : Store) :
  after (Toggle dom) s = map (flipIf dom) s.
Proof. reflexivity. Qed.

Lemma flipIf_domain (dom : string) (d : BlockedDomain) :
  domain (flipIf dom d) = domain d.
Proof. unfold flipIf. now destruct (domain d =? dom)%string. Qed.

Lemma flipIf_involutive (dom : string) (d : BlockedDomain) :
  flipIf dom (flipIf dom d) = d.
Proof.
  unfold flipIf. destruct d as [n e]. simpl.
  destruct (n =? dom)%string eqn:E; simpl; rewrite E; [|reflexivity].
  now rewrite negb_involutive.
Qed.

Lemma run_cons (op : Op) (ops : list Op) (s : Store) :
  run (op :: ops) s = run ops (after op s).
Proof. reflexivity. Qed.

(** A property of domains that every output of [normalizeDomain] has is an
    invariant of the store. *)
Lemma run_domains_invariant (P : string -> Prop) :
  (forall x, P (normalizeDomain x)) ->
  forall ops start,
    Forall (fun e => P (domain e)) start ->
    Forall (fun e => P (domain e)) (run ops start).
Proof.
  intros HP ops. induction ops as [|op ops IH]; intros start H; [exact H|].
  rewrite run_cons. apply IH. destruct op as [d|d|d].
  - destruct (after_Add d start) as [->|[-> _]]; [exact H|].
    apply Forall_app. split; [exact H|]. constructor; [apply HP|constructor].
  - rewrite after_Remove. rewrite Forall_forall in *.
    intros e He. apply filter_In in He. now apply H.
  - rewrite after_Toggle. rewrite Forall_forall in *.
    intros e He. apply in_map_iff in He. destruct He as (e0 & <- & He0).
    rewrite flipIf_domain. now apply H.
Qed.

(** Dropping entries cannot create a repeated domain. *)
Lemma filter_unique (keep : BlockedDomain -> bool) (s : Store) :
  uniqueDomains s -> uniqueDomains (filter keep s).
Proof.
  unfold uniqueDomains.
  induction s as [|e s IH]; simpl; intros H; [constructor|].
  inversion H as [|? ? Hfresh Hrest]; subst.
  destruct (keep e); simpl; [|now apply IH].
  constructor; [|now apply IH].
  intros Hin. apply Hfresh. apply in_map_iff in Hin.
  destruct Hin as (x & Hx & Hin). apply filter_In in Hin.
  apply in_map_iff. exists x. tauto.
Qed.

Lemma after_unique (op : Op) (s : Store) :
  uniqueDomains s -> uniqueDomains (after op s).
Proof.
  unfold uniqueDomains. intros H. destruct op as [d|d|d].
  - destruct (after_Add d s) as [->|[-> Hnew]]; [exact H|].
    rewrite map_app. simpl. rewrite present_map in Hnew.
    apply NoDup_app. repeat split; auto.
    + constructor; [intros []|constructor].
    + intros x Hx [<-|[]]. now apply Hnew.
  - rewrite after_Remove. now apply filter_unique.
  - rewrite after_Toggle, map_map.
    erewrite map_ext; [exact H|]. intros e. apply flipIf_domain.
Qed.

(** [find] on the store: the first entry with the domain, if any. *)
Lemma find_none_absent (dom : string) (s : Store) :
  find (fun d => (domain d =? dom)%string) s = None <-> ~ present dom s.
Proof.
  rewrite <- existsb_present. induction s as [|e s IH]; simpl.
  - split; [discriminate|reflexivity].
  - destruct (domain e =? dom)%string; simpl; [split; [discriminate|congruence]|exact IH].
Qed.

Lemma find_app_absent (dom : string) (s : Store) (e : BlockedDomain) :
  ~ present dom s -> domain e = dom ->
  find (fun d => (domain d =? dom)%string) (s ++ [e]) = Some e.
Proof.
  intros Habs He. induction s as [|a s IH]; simpl.
  - apply String.eqb_eq in He. now rewrite He.
  - destruct (domain a =? dom)%string eqn:E.
    + exfalso. apply Habs. exists a. split; [now left|now apply String.eqb_eq].
    + apply IH. intros (x & Hx & Hd). apply Habs. exists x. split; [now right|exact Hd].
Qed.

(** With distinct domains, the first match is the only one. *)
Lemma find_unique (dom : string) (s : Store) (e : BlockedDomain) :
  uniqueDomains s -> In e s -> domain e = dom ->
  find (fun d => (domain d =? dom)%string) s = Some e.
Proof.
  unfold uniqueDomains. induction s as [|a s IH]; simpl; intros Hnd Hin He; [contradiction|].
  inversion Hnd as [|? ? Hnot Hnd']; subst.
  destruct Hin as [->|Hin].
  - now rewrite String.eqb_refl.
  - destruct (domain a =? domain e)%string eqn:E; [|now apply IH].
    apply String.eqb_eq in E. exfalso. apply Hnot. rewrite E. now apply in_map.
Qed.

Lemma find_some_present (dom : string) (s : Store) (e : BlockedDomain) :
  find (fun d => (domain d =? dom)%string) s = Some e -> In e s /\ domain e = dom.
Proof.
  intros H. apply find_some in H. destruct H as [Hin He].
  split; [exact Hin|now apply String.eqb_eq].
Qed.

End StoreFacts.

(* ================================================================== *)
(** * Domain rules: idempotence of [normalizeDomain] *)

(** Two passes differ from one: only one [www.] label is removed per pass. *)
Lemma normalizeDomain_not_idempotent :
  normalizeDomain (normalizeDomain "www.www.example.com")
  <> normalizeDomain "www.www.example.com".
Proof. vm_compute. discriminate. Qed.

(** C2 (amended).  [normalizeDomain] is a total function, with
    [normalizeDomain "" = ""], and a second pass changes nothing exactly
    when the first result has no white space at either end and does not
    start with [www.]. *)
Theorem normalizeDomain_idempotent_iff :
  normalizeDomain "" = "" /\
  forall x : string,
    normalizeDomain (normalizeDomain x) = normalizeDomain x <->
    Js.trim (normalizeDomain x) = normalizeDomain x /\ noWww (normalizeDomain x).
Proof.
  split; [reflexivity|]. intros x. unfold noWww.
  rewrite normalizeDomain_fixed_iff. split.
  - intros (Ht & _ & _ & Hw). now split.
  - intros [Ht Hw]. repeat split; auto.
    + apply normalizeDomain_lowercase.
    + apply normalizeDomain_noSlash.
Qed.

(* ================================================================== *)
(** * Invariants of the block list *)

(** Neither loading nor [add] yields canonical domains in general: a
    persisted entry is kept as written, and [add] stores the result of a
    single normalization pass. *)
Lemma stored_domain_not_canonical :
  let persisted :=
    Text (JsonReader.js "[{'domain':'WWW.Example.com/','enabled':true}]") in
  asStore (deserialize JsonReader.parse persisted)
    = Some [mkBlockedDomain "WWW.Example.com/" true] /\
  ~ canonical "WWW.Example.com/" /\
  asStore (deserialize JsonReader.parse Undefined) = Some [] /\
  run [Add "www.www.example.com"] [] = [mkBlockedDomain "www.example.com" true] /\
  ~ canonical "www.example.com".
Proof.
  cbv zeta. repeat split; try reflexivity.
  - intros (Hl & _). vm_compute in Hl. discriminate.
  - intros (_ & _ & Hw & _). vm_compute in Hw. discriminate.
Qed.

(** C3 (amended).  From a collection whose domains are lower-case and have
    no scheme, no path and no trailing slash, every sequence of [add],
    [remove] and [toggle] leads to a collection with the same property. *)
Theorem run_keeps_domains_tidy (ops : list Op) (start : Store) :
  Forall (fun e => tidy (domain e)) start ->
  Forall (fun e => tidy (domain e)) (run ops start).
Proof.
  apply run_domains_invariant. exact normalizeDomain_tidy.
Qed.

Lemma run_keeps_domains_tidy_witness :
  Forall (fun e => tidy (domain e))
    (run [Add " HTTPS://WWW.Example.com/path "; Toggle "focus.org";
          Add "www.www.focus.org"; Remove "nothing"]
         [mkBlockedDomain "focus.org" false]).
Proof.
  apply (run_keeps_domains_tidy _ [mkBlockedDomain "focus.org" false]).
  constructor; [|constructor].
  repeat split; vm_compute; reflexivity.
Defined.

(** Loading keeps every well-typed element, repeated domains included. *)
Lemma deserialize_keeps_duplicates :
  let persisted :=
    Text (JsonReader.js
      "[{'domain':'a.com','enabled':true},{'domain':'a.com','enabled':false}]") in
  let loaded := [mkBlockedDomain "a.com" true; mkBlockedDomain "a.com" false] in
  asStore (deserialize JsonReader.parse persisted) = Some loaded /\
  ~ uniqueDomains (run [] loaded).
Proof.
  cbv zeta. split; [reflexivity|].
  unfold uniqueDomains. simpl. intros H.
  inversion H as [|? ? Hnot _]; subst. apply Hnot. now left.
Qed.

(** C6 (amended).  From a collection with at most one entry per domain,
    every sequence of [add], [remove] and [toggle] leads to a collection
    with at most one entry per domain. *)
Theorem run_keeps_domains_unique (ops : list Op) (start : Store) :
  uniqueDomains start -> uniqueDomains (run ops start).
Proof.
  revert start. induction ops as [|op ops IH]; intros start H; [exact H|].
  rewrite run_cons. apply IH. now apply after_unique.
Qed.

Lemma run_keeps_domains_unique_witness :
  uniqueDomains
    (run [Add "example.com"; Add "Example.com/"; Toggle "example.com";
          Add "www.focus.org"; Remove "example.com"; Add "example.com"]
         [mkBlockedDomain "focus.org" false; mkBlockedDomain "example.com" true]).
Proof.
  apply (run_keeps_domains_unique _
           [mkBlockedDomain "focus.org" false; mkBlockedDomain "example.com" true]).
  unfold uniqueDomains. simpl.
  constructor; [intros [H|[]]; discriminate|].
  constructor; [intros []|constructor].
Defined.

(* ================================================================== *)
(** * The mutation contract *)

(** C4.  [add] is rejected with [InvalidFormat] exactly when the normalized
    input is empty or not a valid domain; otherwise with [DuplicateEntry]
    exactly when some entry, enabled or not, has the normalized domain;
    otherwise it resolves and appends the normalized domain, enabled, at
    the end.  A rejected [add] leaves the collection as it was. *)
Theorem add_outcomes (rawDomain : string) (current : Store) :
  let normalized := normalizeDomain rawDomain in
  let invalid := normalized = "" \/ isValidDomain normalized = false in
  let result := blockedDomainsStorage.add rawDomain current in
  (fst result = inl InvalidFormat <-> invalid) /\
  (fst result = inl DuplicateEntry <-> ~ invalid /\ present normalized current) /\
  (fst result = inr tt <-> ~ invalid /\ ~ present normalized current) /\
  (fst result = inr tt ->
   snd result = current ++ [mkBlockedDomain normalized true]) /\
  (forall e, fst result = inl e -> snd result = current).
Proof.
  cbv zeta.
  destruct (invalid_dec (normalizeDomain rawDomain)) as [Hinv|[Hne Hv]].
  - rewrite (add_invalid _ _ Hinv). simpl.
    repeat split; try tauto; try discriminate; intros [H _]; tauto.
  - assert (~ (normalizeDomain rawDomain = "" \/
               isValidDomain (normalizeDomain rawDomain) = false)) as Hok.
    { intros [E|E]; [contradiction|congruence]. }
    rewrite (add_valid _ _ Hne Hv).
    destruct (existsb _ current) eqn:E; simpl.
    + assert (present (normalizeDomain rawDomain) current) as Hp
        by now apply existsb_present.
      repeat split; try tauto; try discriminate.
    + assert (~ present (normalizeDomain rawDomain) current) as Hp
        by (rewrite <- existsb_present, E; discriminate).
      repeat split; try tauto; try discriminate.
Qed.

(** C7.  When the normalized form of [d] is non-empty, valid and absent
    from the collection, [add d] followed by [isBlocked d] answers [true]. *)
Theorem add_then_isBlocked (d : string) (current : Store) :
  normalizeDomain d <> "" ->
  isValidDomain (normalizeDomain d) = true ->
  ~ present (normalizeDomain d) current ->
  fst (andThen (blockedDomainsStorage.add d)
               (fun _ => blockedDomainsStorage.isBlocked d) current)
  = inr true.
Proof.
  intros Hne Hv Habs. unfold andThen.
  rewrite (add_valid _ _ Hne Hv).
  assert (existsb (fun e => (domain e =? normalizeDomain d)%string) current = false) as ->.
  { destruct (existsb _ current) eqn:E; [|reflexivity].
    exfalso. apply Habs. now apply existsb_present. }
  unfold blockedDomainsStorage.isBlocked, storage.get.
  rewrite (find_app_absent (normalizeDomain d) current
             (mkBlockedDomain (normalizeDomain d) true) Habs eq_refl).
  reflexivity.
Qed.

Lemma add_then_isBlocked_witness :
  fst (andThen (blockedDomainsStorage.add " https://WWW.Example.com/path ")
               (fun _ => blockedDomainsStorage.isBlocked " https://WWW.Example.com/path ")
               [mkBlockedDomain "focus.org" false])
  = inr true.
Proof.
  apply (add_then_isBlocked " https://WWW.Example.com/path "
           [mkBlockedDomain "focus.org" false]).
  - vm_compute. discriminate.
  - vm_compute. reflexivity.
  - intros (e & [<-|[]] & He). vm_compute in He. discriminate.
Defined.

(** C9.  [toggle] always resolves; applied twice with the same argument it
    gives back the collection it started from, and applied once to a
    collection without that domain it changes nothing. *)
Theorem toggle_twice (dom : string) (s : Store) :
  fst (blockedDomainsStorage.toggle dom s) = inr tt /\
  after (Toggle dom) (after (Toggle dom) s) = s /\
  (~ present dom s -> after (Toggle dom) s = s).
Proof.
  split; [reflexivity|]. rewrite !after_Toggle. split.
  - rewrite map_map. rewrite <- (map_id s) at 2.
    apply map_ext. intros e. apply flipIf_involutive.
  - intros Habs. rewrite <- (map_id s) at 2.
    apply map_ext_in. intros e He. unfold flipIf.
    destruct (domain e =? dom)%string eqn:E; [|reflexivity].
    exfalso. apply Habs. exists e. split; [exact He|now apply String.eqb_eq].
Qed.

(** A collection that holds the argument itself is changed, also when the
    argument is a non-canonical spelling of another entry's domain. *)
Lemma remove_toggle_literal_match :
  let s := run [Add "example.com"; Add "www.www.example.com"] [] in
  present "example.com" s /\
  normalizeDomain "www.example.com" = "example.com" /\
  after (Remove "www.example.com") s <> s /\
  after (Toggle "www.example.com") s <> s.
Proof.
  cbv zeta.
  assert (run [Add "example.com"; Add "www.www.example.com"] []
          = [mkBlockedDomain "example.com" true;
             mkBlockedDomain "www.example.com" true]) as ->
    by (vm_compute; reflexivity).
  split; [|split; [|split]].
  - exists (mkBlockedDomain "example.com" true). split; [left|]; reflexivity.
  - vm_compute. reflexivity.
  - vm_compute. discriminate.
  - vm_compute. discriminate.
Qed.

Lemma filter_fixed {A : Type} (p : A -> bool) (l : list A) :
  filter p l = l <-> forall a, In a l -> p a = true.
Proof.
  induction l as [|a l IH]; simpl.
  - split; [intros _ ? []|reflexivity].
  - destruct (p a) eqn:E.
    + split.
      * intros H. injection H as H. intros x [<-|Hx]; [exact E|]. now apply IH.
      * intros H. f_equal. apply IH. intros x Hx. apply H. now right.
    + split.
      * intros H. pose proof (filter_length_le p l) as Hlen.
        rewrite H in Hlen. simpl in Hlen. lia.
      * intros H. specialize (H a (or_introl eq_refl)). congruence.
Qed.

Lemma flipIf_fixed (dom : string) (d : BlockedDomain) :
  flipIf dom d = d <-> domain d <> dom.
Proof.
  unfold flipIf. destruct (domain d =? dom)%string eqn:E.
  - apply String.eqb_eq in E. split; [|contradiction].
    destruct d as [n b]. simpl. intros H. injection H as H.
    now destruct b.
  - apply String.eqb_neq in E. tauto.
Qed.

Lemma map_fixed {A : Type} (f : A -> A) (l : list A) :
  map f l = l <-> forall a, In a l -> f a = a.
Proof.
  induction l as [|a l IH]; simpl.
  - split; [intros _ ? []|reflexivity].
  - split.
    + intros H. injection H as Ha Hl. intros x [<-|Hx]; [exact Ha|]. now apply IH.
    + intros H. f_equal; [apply H; now left|]. apply IH. intros x Hx. apply H. now right.
Qed.

(** C10 (amended).  [remove x] and [toggle x] compare [x] as given with the
    stored domains: each leaves the collection unchanged exactly when no
    entry has [x] itself as its domain, whatever [normalizeDomain x] is.
    [isBlocked x] looks up [normalizeDomain x] instead. *)
Theorem remove_toggle_verbatim (x : string) (s : Store) :
  (after (Remove x) s = s <-> ~ present x s) /\
  (after (Toggle x) s = s <-> ~ present x s) /\
  fst (blockedDomainsStorage.isBlocked x s)
  = inr (match find (fun d => (domain d =? normalizeDomain x)%string) s with
         | Some e => enabled e
         | None => false
         end).
Proof.
  split; [|split;
    [|unfold blockedDomainsStorage.isBlocked, storage.get;
      now destruct (find _ s)]].
  - rewrite after_Remove. etransitivity; [apply filter_fixed|].
    unfold present. split.
    + intros H (e & He & Hd). specialize (H e He).
      apply negb_true_iff, String.eqb_neq in H. contradiction.
    + intros H e He. apply negb_true_iff, String.eqb_neq.
      intros Hd. apply H. now exists e.
  - rewrite after_Toggle. etransitivity; [apply map_fixed|].
    unfold present. split.
    + intros H (e & He & Hd). specialize (H e He).
      apply flipIf_fixed in H. contradiction.
    + intros H e He. apply flipIf_fixed. intros Hd. apply H. now exists e.
Qed.

(** The spellings of the claim, on a collection that holds only the
    canonical form: [remove] and [toggle] change nothing, while [isBlocked]
    and [add] recognise the entry. *)
Example verbatim_spellings :
  let s := [mkBlockedDomain "example.com" true] in
  forall x, In x ["Example.com"; "https://example.com/"; "www.example.com"] ->
    after (Remove x) s = s /\ after (Toggle x) s = s /\
    fst (blockedDomainsStorage.isBlocked x s) = inr true /\
    fst (blockedDomainsStorage.add x s) = inl DuplicateEntry.
Proof.
  cbv zeta. intros x [<-|[<-|[<-|[]]]]; repeat split; vm_compute; reflexivity.
Qed.

(* ================================================================== *)
(** * Deserialization *)

Lemma isEntry_iff (item : Json.value) :
  isEntry item = true <->
  exists members d e,
    item = Json.Object members /\
    Json.lookup "domain" members = Some (Json.Str d) /\
    Json.lookup "enabled" members = Some (Json.Bool e).
Proof.
  unfold isEntry. split.
  - intros H. apply andb_true_iff in H. destruct H as [H He].
    apply andb_true_iff in H. destruct H as [Ho Hd].
    destruct item as [| | | |items|members]; try discriminate.
    simpl in *. exists members.
    destruct (Json.lookup "domain" members) as [[| | |d| |]|]; try discriminate.
    destruct (Json.lookup "enabled" members) as [[|e| | | |]|]; try discriminate.
    now exists d, e.
  - intros (members & d & e & -> & Hd & He). simpl. now rewrite Hd, He.
Qed.

(** C5.  [deserialize] is a total function.  It answers the empty
    collection for a missing or null value, for the texts [undefined] and
    [null], for a blank text, for a text that [JSON.parse] rejects and for
    a parsed value that is not an array.  An array whose first element is
    a string is migrated element by element to [{domain, enabled: true}];
    any other array is filtered down to the objects that have a string
    [domain] and a boolean [enabled]. *)
Theorem deserialize_cases (JSON_parse : string -> option Json.value) :
  deserialize JSON_parse Undefined = [] /\
  deserialize JSON_parse NullValue = [] /\
  (forall t, t = "undefined" \/ t = "null" \/ Js.trim t = "" ->
     deserialize JSON_parse (Text t) = []) /\
  (forall t, JSON_parse t = None -> deserialize JSON_parse (Text t) = []) /\
  (forall t v, JSON_parse t = Some v -> (forall items, v <> Json.Array items) ->
     deserialize JSON_parse (Text t) = []) /\
  (forall t first rest,
     t <> "undefined" -> t <> "null" -> Js.trim t <> "" ->
     JSON_parse t = Some (Json.Array (Json.Str first :: rest)) ->
     deserialize JSON_parse (Text t) =
     map (fun s => Json.Object [("domain", s); ("enabled", Json.Bool true)])
         (Json.Str first :: rest)) /\
  (forall t items,
     t <> "undefined" -> t <> "null" -> Js.trim t <> "" ->
     JSON_parse t = Some (Json.Array items) ->
     (forall first rest, items <> Json.Str first :: rest) ->
     deserialize JSON_parse (Text t) = filter isEntry items) /\
  (forall item,
     isEntry item = true <->
     exists members d e,
       item = Json.Object members /\
       Json.lookup "domain" members = Some (Json.Str d) /\
       Json.lookup "enabled" members = Some (Json.Bool e)).
Proof.
  assert (forall t, t <> "undefined" -> t <> "null" -> Js.trim t <> "" ->
          ((t =? "undefined")%string || (t =? "null")%string
           || (Js.trim t =? "")%string) = false) as Hguard.
  { intros t H1 H2 H3. apply String.eqb_neq in H1, H2, H3. now rewrite H1, H2, H3. }
  repeat split; try reflexivity.
  - intros t [->|[->|H]]; try reflexivity.
    simpl. apply String.eqb_eq in H. rewrite H. now rewrite !orb_true_r.
  - intros t H. simpl. rewrite H. now destruct (_ || _).
  - intros t v H Hv. simpl. rewrite H. destruct (_ || _); [reflexivity|].
    destruct v; try reflexivity. now destruct (Hv l).
  - intros t first rest H1 H2 H3 H. simpl deserialize.
    now rewrite (Hguard t H1 H2 H3), H.
  - intros t items H1 H2 H3 H Hfirst. simpl deserialize.
    rewrite (Hguard t H1 H2 H3), H.
    destruct items as [|[| | |d| |] rest]; try reflexivity.
    now destruct (Hfirst d rest).
  - apply isEntry_iff.
  - apply isEntry_iff.
Qed.

(** The persisted values of the specification's examples, read with the
    reference JSON reader. *)
Example deserialize_examples :
  deserialize JsonReader.parse (Text (JsonReader.js "['a.com','b.com']"))
    = [Json.Object [("domain", Json.Str "a.com"); ("enabled", Json.Bool true)];
       Json.Object [("domain", Json.Str "b.com"); ("enabled", Json.Bool true)]] /\
  asStore (deserialize JsonReader.parse (Text (JsonReader.js "['a.com','b.com']")))
    = Some [mkBlockedDomain "a.com" true; mkBlockedDomain "b.com" true] /\
  deserialize JsonReader.parse (Text "not json") = [] /\
  deserialize JsonReader.parse (Text "null") = [] /\
  deserialize JsonReader.parse (Text "   ") = [] /\
  deserialize JsonReader.parse (Text (JsonReader.js "{'domain':'a.com','enabled':true}")) = [] /\
  deserialize JsonReader.parse
    (Text (JsonReader.js
       "[{'domain':'a.com','enabled':false,'note':1},{'domain':7,'enabled':true},null,5,['x'],{'domain':'b.com'}]"))
    = [Json.Object [("domain", Json.Str "a.com"); ("enabled", Json.Bool false);
                    ("note", Json.Number "1")]].
Proof. repeat split; vm_compute; reflexivity. Qed.

(* ================================================================== *)
(** * Navigation guard *)

Lemma skipped_iff (url : string) :
  skipped url = true <->
  Js.startsWith "chrome://" url = true \/
  Js.startsWith "chrome-extension://" url = true \/
  Js.startsWith "about:" url = true \/
  Js.includes "blocked.html" url = true.
Proof.
  unfold skipped. rewrite !orb_true_iff. tauto.
Qed.

(** An evaluation has no effect at all exactly when the URL is skipped. *)
Lemma checkAndBlockDomain_silent_iff
  (URL_hostname : string -> option string) (extensionId url : string)
  (tabId : Z) (current : Store) :
  checkAndBlockDomain URL_hostname extensionId url tabId current = [] <->
  skipped url = true.
Proof.
  unfold checkAndBlockDomain. destruct (skipped url); [tauto|].
  split; [|discriminate].
  destruct (URL_hostname url) as [h|]; [|discriminate].
  unfold blockedDomainsStorage.isBlocked, storage.get.
  destruct (find _ current); discriminate.
Qed.

(** C1 (evaluation at the failing input).  A URL of an ordinary site that
    merely contains the text [blocked.html] has none of the internal
    schemes and is not the extension's own page, and still its evaluation
    stops at once: no store query, no redirect. *)
Theorem blocked_html_substring_is_skipped
  (URL_hostname : string -> option string) (extensionId : string)
  (tabId : Z) (current : Store) :
  let url := "https://example.com/blocked.html" in
  Js.startsWith "chrome://" url = false /\
  Js.startsWith "chrome-extension://" url = false /\
  Js.startsWith "about:" url = false /\
  url <> getURL extensionId "blocked.html" /\
  checkAndBlockDomain URL_hostname extensionId url tabId current = [].
Proof.
  cbv zeta. repeat split. unfold getURL. simpl. discriminate.
Qed.

(** The same site on another path, with its domain enabled in the list. *)
Example ordinary_page_is_redirected :
  checkAndBlockDomain UrlReader.hostname "abcdefgh"
    "https://example.com/page" 7 [mkBlockedDomain "example.com" true]
  = [StorageRead; TabsUpdate 7 "chrome-extension://abcdefgh/blocked.html"] /\
  checkAndBlockDomain UrlReader.hostname "abcdefgh"
    "https://example.com/blocked.html" 7 [mkBlockedDomain "example.com" true]
  = [] /\
  checkAndBlockDomain UrlReader.hostname "abcdefgh"
    "chrome://settings" 7 [mkBlockedDomain "example.com" true]
  = [].
Proof. repeat split; vm_compute; reflexivity. Qed.

(** Two evaluations in which an enabled entry has the normalized host as
    its domain and no redirect is issued.  In the first the host has two
    leading [www.] labels: the guard normalizes it, [isBlocked] normalizes
    it again, and the lookup is for the host without either label.  In the
    second the loaded collection repeats a domain and the first of the two
    entries, which is disabled, decides. *)
Lemma guard_misses_enabled_entry :
  (let current := run [Add "www.www.example.com"] [] in
   let url := "https://www.www.example.com/" in
   skipped url = false /\
   UrlReader.hostname url = Some "www.www.example.com" /\
   (exists e, In e current /\
              domain e = normalizeDomain "www.www.example.com" /\
              enabled e = true) /\
   checkAndBlockDomain UrlReader.hostname "abcdefgh" url 7 current
   = [StorageRead]) /\
  (let current :=
     [mkBlockedDomain "example.com" false; mkBlockedDomain "example.com" true] in
   let url := "https://example.com/" in
   skipped url = false /\
   UrlReader.hostname url = Some "example.com" /\
   (exists e, In e current /\
              domain e = normalizeDomain "example.com" /\
              enabled e = true) /\
   checkAndBlockDomain UrlReader.hostname "abcdefgh" url 7 current
   = [StorageRead]).
Proof.
  cbv zeta.
  assert (run [Add "www.www.example.com"] []
          = [mkBlockedDomain "www.example.com" true]) as ->
    by (vm_compute; reflexivity).
  split; (split; [|split; [|split]]); try (vm_compute; reflexivity).
  - exists (mkBlockedDomain "www.example.com" true).
    split; [left; reflexivity|]. split; vm_compute; reflexivity.
  - exists (mkBlockedDomain "example.com" true).
    split; [right; left; reflexivity|]. split; vm_compute; reflexivity.
Qed.

(** C8 (amended).  For an evaluation that is not skipped and whose URL
    parses, the store is read once and the tab is redirected to the
    extension's blocked page exactly when the first entry whose domain
    equals the host normalized twice is enabled.  When normalizing the host
    twice is the same as once and the entries have distinct domains, that
    is: exactly when an enabled entry has the normalized host as its
    domain.  A committed navigation of a subframe has no effect. *)
Theorem guard_redirects_iff_blocked
  (URL_hostname : string -> option string) (extensionId url : string)
  (tabId : Z) (current : Store) (hostname : string) :
  skipped url = false ->
  URL_hostname url = Some hostname ->
  let looked := normalizeDomain (normalizeDomain hostname) in
  let redirect := TabsUpdate tabId (getURL extensionId "blocked.html") in
  let effects := checkAndBlockDomain URL_hostname extensionId url tabId current in
  (effects = [StorageRead; redirect] \/ effects = [StorageRead]) /\
  (In redirect effects <->
   exists e, find (fun d => (domain d =? looked)%string) current = Some e /\
             enabled e = true) /\
  (normalizeDomain (normalizeDomain hostname) = normalizeDomain hostname ->
   uniqueDomains current ->
   (In redirect effects <->
    exists e, In e current /\ domain e = normalizeDomain hostname /\
              enabled e = true)) /\
  (forall details, frameId details <> 0%Z ->
     onCommitted URL_hostname extensionId details current = []).
Proof.
  intros Hskip Hurl. cbv zeta.
  assert (In (TabsUpdate tabId (getURL extensionId "blocked.html"))
             (checkAndBlockDomain URL_hostname extensionId url tabId current) <->
          exists e, find (fun d => (domain d =? normalizeDomain (normalizeDomain hostname))%string)
                         current = Some e /\ enabled e = true) as Hiff.
  { unfold checkAndBlockDomain. rewrite Hskip, Hurl.
    unfold blockedDomainsStorage.isBlocked, storage.get.
    destruct (find _ current) as [e|].
    - destruct (enabled e) eqn:En; simpl.
      + split; [intros _; now exists e|intros _; right; now left].
      + split.
        * intros [H|[]]. discriminate.
        * intros (e' & He' & En'). injection He' as <-. congruence.
    - simpl. split.
      + intros [H|[]]. discriminate.
      + intros (e' & He' & _). discriminate. }
  split; [|split; [exact Hiff|split]].
  - unfold checkAndBlockDomain. rewrite Hskip, Hurl.
    unfold blockedDomainsStorage.isBlocked, storage.get.
    destruct (find _ current) as [e|]; [destruct (enabled e)|]; simpl; auto.
  - intros Hidem Huniq. rewrite Hiff, Hidem. split.
    + intros (e & He & En). apply find_some_present in He. exists e. tauto.
    + intros (e & Hin & Hd & En). exists e. split; [|exact En].
      now apply find_unique.
  - intros details Hframe. unfold onCommitted.
    apply Z.eqb_neq in Hframe. now rewrite Hframe.
Qed.

Lemma guard_redirects_iff_blocked_witness :
  In (TabsUpdate 7 (getURL "abcdefgh" "blocked.html"))
     (checkAndBlockDomain UrlReader.hostname "abcdefgh"
        "https://blocked-domain.com/page" 7
        [mkBlockedDomain "focus.org" true; mkBlockedDomain "blocked-domain.com" true]).
Proof.
  apply (proj1 (proj2 (guard_redirects_iff_blocked UrlReader.hostname "abcdefgh"
                         "https://blocked-domain.com/page" 7
                         [mkBlockedDomain "focus.org" true;
                          mkBlockedDomain "blocked-domain.com" true]
                         "blocked-domain.com" eq_refl eq_refl))).
  exists (mkBlockedDomain "blocked-domain.com" true).
  split; vm_compute; reflexivity.
Defined.

(** The guard's examples of the specification. *)
Example guard_examples :
  let page := "https://blocked-domain.com/page" in
  checkAndBlockDomain UrlReader.hostname "abcdefgh" page 7
    [mkBlockedDomain "blocked-domain.com" true]
  = [StorageRead; TabsUpdate 7 "chrome-extension://abcdefgh/blocked.html"] /\
  checkAndBlockDomain UrlReader.hostname "abcdefgh" page 7
    [mkBlockedDomain "blocked-domain.com" false]
  = [StorageRead] /\
  onCommitted UrlReader.hostname "abcdefgh" (mkNavigationDetails 3 page 7)
    [mkBlockedDomain "blocked-domain.com" true]
  = [] /\
  onCommitted UrlReader.hostname "abcdefgh" (mkNavigationDetails 0 page 7)
    [mkBlockedDomain "blocked-domain.com" true]
  = [StorageRead; TabsUpdate 7 "chrome-extension://abcdefgh/blocked.html"] /\
  onUpdated UrlReader.hostname "abcdefgh" 7 (mkChangeInfo (Some "loading"))
    (mkTab (Some page)) [mkBlockedDomain "blocked-domain.com" true]
  = [StorageRead; TabsUpdate 7 "chrome-extension://abcdefgh/blocked.html"].
Proof. cbv zeta. repeat split; vm_compute; reflexivity. Qed.

(** The validation examples of the specification. *)
Example isValidDomain_examples :
  isValidDomain "example.com" = true /\
  isValidDomain "example" = false /\
  isValidDomain "sub.example.co.uk" = true /\
  isValidDomain "-bad.com" = false /\
  isValidDomain "" = false /\
  fst (blockedDomainsStorage.add "not a domain" []) = inl InvalidFormat /\
  after (Remove "absent.org") [mkBlockedDomain "example.com" true]
  = [mkBlockedDomain "example.com" true].
Proof. repeat split; vm_compute; reflexivity. Qed.

(* ================================================================== *)
(** * The matcher decides the language of a pattern *)

Section RegexFacts.

Import Regex RegexLang.

Lemma str_app_nil_r (s : string) : (s ++ "")%string = s.
Proof. induction s as [|c s IH]; simpl; congruence. Qed.

Lemma str_app_assoc (a b c : string) :
  ((a ++ b) ++ c)%string = (a ++ (b ++ c))%string.
Proof. induction a as [|x a IH]; simpl; congruence. Qed.

Lemma str_length_app (a b : string) :
  String.length (a ++ b) = String.length a + String.length b.
Proof. induction a as [|x a IH]; simpl; congruence. Qed.

Lemma str_app_empty (a b : string) :
  (a ++ b)%string = EmptyString -> a = EmptyString /\ b = EmptyString.
Proof. destruct a; simpl; [tauto|discriminate]. Qed.

Lemma lang_Void (s : string) : ~ lang Void s.
Proof. intros H. inversion H. Qed.

Lemma lang_Eps (s : string) : lang Eps s <-> s = EmptyString.
Proof.
  split; [intros H; now inversion H|intros ->; constructor].
Qed.

Lemma lang_Class (p : ascii -> bool) (s : string) :
  lang (Class p) s <-> exists c, s = String c EmptyString /\ p c = true.
Proof.
  split.
  - intros H. inversion H; subst. eauto.
  - intros (c & -> & Hc). now constructor.
Qed.

Lemma lang_Cat (a b : regex) (w : string) :
  lang (Cat a b) w <-> exists s t, w = (s ++ t)%string /\ lang a s /\ lang b t.
Proof.
  split.
  - intros H. inversion H; subst. eauto.
  - intros (s & t & -> & Ha & Hb). now constructor.
Qed.

Lemma lang_Alt (a b : regex) (w : string) :
  lang (Alt a b) w <-> lang a w \/ lang b w.
Proof.
  split.
  - intros H. inversion H; subst; tauto.
  - intros [H|H]; [now apply lang_alt_l|now apply lang_alt_r].
Qed.

Lemma lang_cat_smart (a b : regex) (w : string) :
  lang (cat a b) w <-> lang (Cat a b) w.
Proof.
  assert (forall r, lang (Cat Void r) w <-> False) as HvL.
  { intros r. rewrite lang_Cat. split; [|tauto].
    intros (s & t & _ & H & _). now apply lang_Void in H. }
  assert (forall r, lang (Cat r Void) w <-> False) as HvR.
  { intros r. rewrite lang_Cat. split; [|tauto].
    intros (s & t & _ & _ & H). now apply lang_Void in H. }
  assert (forall r, lang (Cat Eps r) w <-> lang r w) as HeL.
  { intros r. rewrite lang_Cat. split.
    - intros (s & t & -> & Hs & Ht). apply lang_Eps in Hs. now subst.
    - intros H. exists EmptyString, w. repeat split; [constructor|exact H]. }
  assert (forall r, lang (Cat r Eps) w <-> lang r w) as HeR.
  { intros r. rewrite lang_Cat. split.
    - intros (s & t & -> & Hs & Ht). apply lang_Eps in Ht. subst.
      now rewrite str_app_nil_r.
    - intros H. exists w, EmptyString. rewrite str_app_nil_r.
      repeat split; [exact H|constructor]. }
  assert (lang Void w <-> False) as Hv
    by (split; [apply lang_Void|tauto]).
  destruct a, b; simpl;
    rewrite ?HvL, ?HvR, ?HeL, ?HeR, ?Hv; tauto.
Qed.

Lemma lang_alt_smart (a b : regex) (w : string) :
  lang (alt a b) w <-> lang (Alt a b) w.
Proof.
  pose proof (lang_Void w) as Hv.
  destruct a, b; simpl; rewrite ?lang_Alt; tauto.
Qed.

Lemma nullable_lang (r : regex) : nullable r = true <-> lang r EmptyString.
Proof.
  induction r as [| |p|a IHa b IHb|a IHa b IHb|a IHa]; simpl.
  - split; [discriminate|intros H; now apply lang_Void in H].
  - split; [constructor|reflexivity].
  - split; [discriminate|]. rewrite lang_Class. intros (c & H & _). discriminate.
  - rewrite andb_true_iff, IHa, IHb, lang_Cat. split.
    + intros [Ha Hb]. now exists EmptyString, EmptyString.
    + intros (s & t & E & Ha & Hb). symmetry in E.
      apply str_app_empty in E. destruct E; now subst.
  - rewrite orb_true_iff, IHa, IHb, lang_Alt. tauto.
  - split; [constructor|reflexivity].
Qed.

(** A non-empty match of a starred pattern starts with a non-empty match
    of the pattern. *)
Lemma lang_Star_cons (a : regex) (c : ascii) (w : string) :
  lang (Star a) (String c w) ->
  exists s t, w = (s ++ t)%string /\ lang a (String c s) /\ lang (Star a) t.
Proof.
  intros H. remember (Star a) as r eqn:Er. remember (String c w) as v eqn:Ev.
  revert a c w Er Ev.
  induction H as [| | | | | |a0 s t Hs _ Ht IHt]; intros a' c' w' Er Ev;
    try discriminate.
  injection Er as ->. destruct s as [|x s]; simpl in Ev.
  - now apply IHt.
  - injection Ev as -> <-. now exists s, t.
Qed.

Lemma deriv_lang (c : ascii) (r : regex) :
  forall w, lang (deriv c r) w <-> lang r (String c w).
Proof.
  induction r as [| |p|a IHa b IHb|a IHa b IHb|a IHa]; intros w; simpl.
  - split; intros H; now apply lang_Void in H.
  - split; intros H; [now apply lang_Void in H|].
    apply lang_Eps in H. discriminate.
  - rewrite lang_Class. destruct (p c) eqn:E; split.
    + intros H. apply lang_Eps in H. subst. eauto.
    + intros (x & Hx & _). injection Hx as -> ->. constructor.
    + intros H. now apply lang_Void in H.
    + intros (x & Hx & Hp). injection Hx as -> ->. congruence.
  - rewrite lang_alt_smart, lang_Alt, lang_cat_smart, !lang_Cat. split.
    + intros [(s & t & -> & Hs & Ht)|H].
      * exists (String c s), t. repeat split; [now apply IHa|exact Ht].
      * destruct (nullable a) eqn:N; [|now apply lang_Void in H].
        exists EmptyString, (String c w).
        repeat split; [now apply nullable_lang|now apply IHb].
    + intros (s & t & E & Hs & Ht). destruct s as [|x s]; simpl in E.
      * right. subst t. apply nullable_lang in Hs. rewrite Hs. now apply IHb.
      * injection E as <- ->. left. exists s, t.
        repeat split; [now apply IHa|exact Ht].
  - rewrite lang_alt_smart, !lang_Alt, IHa, IHb. tauto.
  - rewrite lang_cat_smart, lang_Cat. split.
    + intros (s & t & -> & Hs & Ht). apply IHa in Hs.
      exact (lang_star_cons a (String c s) t Hs Ht).
    + intros H. apply lang_Star_cons in H.
      destruct H as (s & t & -> & Hs & Ht). exists s, t.
      repeat split; [now apply IHa|exact Ht].
Qed.

Lemma matches_lang (r : regex) (w : string) :
  matches r w = true <-> lang r w.
Proof.
  revert r. induction w as [|c w IH]; intros r; simpl.
  - apply nullable_lang.
  - rewrite IH. apply deriv_lang.
Qed.

End RegexFacts.

(* ================================================================== *)
(** * The shape of a valid domain *)

Section ValidDomainFacts.

Import Regex RegexLang.

Lemma lang_Star_class (p : ascii -> bool) (s : string) :
  lang (Star (Class p)) s <-> allChars p s = true.
Proof.
  split.
  - intros H. remember (Star (Class p)) as r eqn:Er. revert Er.
    induction H as [| | | | | |a x t Hx _ Ht IHt]; intros Er; try discriminate.
    + reflexivity.
    + injection Er as ->. apply lang_Class in Hx. destruct Hx as (c & -> & Hc).
      simpl. rewrite Hc. now apply IHt.
  - induction s as [|c s IH]; simpl; intros H; [constructor|].
    apply andb_true_iff in H. destruct H as [Hc Hs].
    apply (lang_star_cons (Class p) (String c EmptyString) s);
      [now constructor|now apply IH].
Qed.

Lemma lang_UpTo_class (p : ascii -> bool) (n : nat) :
  forall s, lang (UpTo n (Class p)) s <->
            allChars p s = true /\ String.length s <= n.
Proof.
  induction n as [|n IH]; intros s; simpl.
  - rewrite lang_Eps. split.
    + intros ->. simpl. split; [reflexivity|lia].
    + intros [_ H]. destruct s; [reflexivity|simpl in H; lia].
  - unfold Opt. rewrite lang_Alt, lang_Cat, lang_Eps. split.
    + intros [(x & t & -> & Hx & Ht)| ->].
      * apply lang_Class in Hx. destruct Hx as (c & -> & Hc).
        apply IH in Ht. destruct Ht as [Ht Hl]. simpl. rewrite Hc, Ht.
        split; [reflexivity|lia].
      * simpl. split; [reflexivity|lia].
    + intros [Hs Hl]. destruct s as [|c s]; [now right|left].
      simpl in Hs, Hl. apply andb_true_iff in Hs. destruct Hs as [Hc Hs].
      exists (String c EmptyString), s. repeat split.
      * now constructor.
      * apply IH. split; [exact Hs|lia].
Qed.

Lemma isAlnum_hyphen (c : ascii) :
  isAlnum c = isAlnumHyphen c && negb (Ascii.eqb c "-").
Proof. destruct c as [[] [] [] [] [] [] [] []]; reflexivity. Qed.

Lemma isAlnumHyphen_not_dot (c : ascii) :
  isAlnumHyphen c = true -> negb (isDot c) = true.
Proof.
  destruct c as [[] [] [] [] [] [] [] []]; vm_compute; intros H;
    first [reflexivity|discriminate H].
Qed.

Lemma isAlpha_alnum (c : ascii) : isAlpha c = true -> isAlnum c = true.
Proof. unfold isAlnum. now intros ->. Qed.

Lemma isDot_eq (c : ascii) : isDot c = true -> c = "."%char.
Proof. apply Ascii.eqb_eq. Qed.

Lemma allChars_weaken (p q : ascii -> bool) (s : string) :
  (forall c, p c = true -> q c = true) ->
  allChars p s = true -> allChars q s = true.
Proof.
  intros Hpq. induction s as [|c s IH]; simpl; [reflexivity|].
  intros H. apply andb_true_iff in H. destruct H as [Hc Hs].
  now rewrite (Hpq c Hc), IH.
Qed.

Lemma startsWith_hyphen (c : ascii) (r : string) :
  Js.startsWith "-" (String c r) = Ascii.eqb c "-".
Proof.
  now rewrite startsWith_cons, startsWith_empty, Ascii.eqb_sym; destruct (Ascii.eqb c "-").
Qed.

Lemma endsWith_hyphen_last (init : string) (c : ascii) :
  Js.endsWith "-" (init ++ String c EmptyString) = Ascii.eqb c "-".
Proof.
  induction init as [|a init IH].
  - simpl. destruct (Ascii.eqb c "-"); reflexivity.
  - cbn [String.append Js.endsWith]. rewrite IH.
    assert ((String a (init ++ String c "") =? "-")%string = false) as ->; [|reflexivity].
    apply String.eqb_neq. intros E. injection E as _ E. now destruct init.
Qed.

Lemma str_snoc (s : string) :
  s <> EmptyString -> exists init c, s = (init ++ String c EmptyString)%string.
Proof.
  induction s as [|a s IH]; intros H; [contradiction|].
  destruct s as [|b s].
  - now exists EmptyString, a.
  - destruct IH as (init & c & E); [discriminate|].
    exists (String a init), c. simpl. now rewrite E.
Qed.

(** The pattern of a label and the test [isLabel] accept the same strings. *)
Lemma labelRegex_isLabel (l : string) :
  lang labelRegex l <-> isLabel l = true.
Proof.
  unfold labelRegex, Opt, isLabel.
  rewrite lang_Cat. split.
  - intros (x & t & -> & Hx & Ht).
    apply lang_Class in Hx. destruct Hx as (c & -> & Hc).
    rewrite isAlnum_hyphen in Hc. apply andb_true_iff in Hc.
    destruct Hc as [Hc Hh]. apply negb_true_iff in Hh.
    apply lang_Alt in Ht. destruct Ht as [Ht|Ht].
    + apply lang_Cat in Ht. destruct Ht as (m & y & -> & Hm & Hy).
      apply lang_UpTo_class in Hm. destruct Hm as [Hm Hlen].
      apply lang_Class in Hy. destruct Hy as (c' & -> & Hc').
      rewrite isAlnum_hyphen in Hc'. apply andb_true_iff in Hc'.
      destruct Hc' as [Hc' Hh']. apply negb_true_iff in Hh'.
      change (String c "" ++ m ++ String c' "")%string
        with (String c (m ++ String c' "")).
      apply andb_true_iff; split;
        [apply andb_true_iff; split;
          [apply andb_true_iff; split;
            [apply andb_true_iff; split|]|]|].
      * reflexivity.
      * apply Nat.leb_le. cbn [String.length]. rewrite str_length_app. simpl. lia.
      * cbn [allChars]. rewrite Hc, allChars_append, Hm. simpl. now rewrite Hc'.
      * now rewrite startsWith_hyphen, Hh.
      * change (String c (m ++ String c' "")) with (String c m ++ String c' "")%string.
        now rewrite endsWith_hyphen_last, Hh'.
    + apply lang_Eps in Ht. subst t.
      change (String c "" ++ "")%string with (String c "").
      apply andb_true_iff; split;
        [apply andb_true_iff; split;
          [apply andb_true_iff; split;
            [apply andb_true_iff; split|]|]|]; try reflexivity.
      * cbn [allChars]. now rewrite Hc.
      * now rewrite startsWith_hyphen, Hh.
      * change (String c "") with ("" ++ String c "")%string.
        now rewrite endsWith_hyphen_last, Hh.
  - intros H.
    apply andb_true_iff in H. destruct H as [H He].
    apply andb_true_iff in H. destruct H as [H Hs].
    apply andb_true_iff in H. destruct H as [H Ha].
    apply andb_true_iff in H. destruct H as [H1 H63].
    apply negb_true_iff in He, Hs. apply Nat.leb_le in H63.
    destruct l as [|c t]; [discriminate H1|].
    rewrite startsWith_hyphen in Hs.
    cbn [allChars] in Ha. apply andb_true_iff in Ha. destruct Ha as [Hc Ht].
    exists (String c EmptyString), t. split; [reflexivity|]. split.
    + constructor. now rewrite isAlnum_hyphen, Hc, Hs.
    + apply lang_Alt. destruct (String.string_dec t EmptyString) as [->|Hne].
      * right. constructor.
      * left. destruct (str_snoc t Hne) as (m & c' & ->).
        rewrite allChars_append in Ht. apply andb_true_iff in Ht.
        destruct Ht as [Hm Hc']. simpl in Hc'. rewrite andb_true_r in Hc'.
        change (String c (m ++ String c' "")) with (String c m ++ String c' "")%string in He.
        rewrite endsWith_hyphen_last in He.
        apply lang_Cat. exists m, (String c' EmptyString). repeat split.
        -- apply lang_UpTo_class. split; [exact Hm|].
           cbn [String.length] in H63. rewrite str_length_app in H63.
           simpl in H63. lia.
        -- constructor. now rewrite isAlnum_hyphen, Hc', He.
Qed.

Lemma dotted_labels_lang (s : string) :
  lang (Star (Cat labelRegex (Class isDot))) s <->
  exists labels, Forall (fun l => isLabel l = true) labels /\ s = dotted labels.
Proof.
  split.
  - intros H. remember (Star (Cat labelRegex (Class isDot))) as r eqn:Er.
    revert Er.
    induction H as [| | | | | |a x t Hx _ Ht IHt]; intros Er; try discriminate.
    + now exists [].
    + injection Er as ->. destruct (IHt eq_refl) as (labels & Hl & ->).
      apply lang_Cat in Hx. destruct Hx as (l & d & -> & Hlab & Hd).
      apply lang_Class in Hd. destruct Hd as (c & -> & Hc).
      apply isDot_eq in Hc. subst c. apply labelRegex_isLabel in Hlab.
      exists (l :: labels). split; [now constructor|].
      simpl. now rewrite str_app_assoc.
  - intros (labels & Hl & ->). induction Hl as [|l labels Hlab _ IH]; simpl.
    + constructor.
    + change (l ++ String "." (dotted labels))%string
        with (l ++ ("." ++ dotted labels))%string.
      rewrite <- str_app_assoc. apply lang_star_cons; [|exact IH].
      apply lang_cat; [now apply labelRegex_isLabel|now constructor].
Qed.

Lemma tld_lang (t : string) :
  lang (Cat (Class isAlpha) (Cat (Class isAlpha) (Star (Class isAlpha)))) t <->
  allChars isAlpha t = true /\ 2 <= String.length t.
Proof.
  rewrite lang_Cat. split.
  - intros (x & y & -> & Hx & Hy).
    apply lang_Class in Hx. destruct Hx as (c1 & -> & H1).
    apply lang_Cat in Hy. destruct Hy as (x & z & -> & Hx & Hz).
    apply lang_Class in Hx. destruct Hx as (c2 & -> & H2).
    apply lang_Star_class in Hz. simpl. rewrite H1, H2, Hz.
    split; [reflexivity|lia].
  - intros [Ha Hl]. destruct t as [|c1 [|c2 z]]; simpl in Hl; try lia.
    simpl in Ha. apply andb_true_iff in Ha. destruct Ha as [H1 Ha].
    apply andb_true_iff in Ha. destruct Ha as [H2 Hz].
    exists (String c1 EmptyString), (String c2 z).
    repeat split; [now constructor|].
    apply lang_Cat. exists (String c2 EmptyString), z.
    repeat split; [now constructor|now apply lang_Star_class].
Qed.

(** What [domainRegex] accepts: one or more labels, each followed by a dot,
    and then two or more letters. *)
Lemma domainRegex_lang (d : string) :
  lang domainRegex d <->
  exists labels tld,
    labels <> [] /\ Forall (fun l => isLabel l = true) labels /\
    allChars isAlpha tld = true /\ 2 <= String.length tld /\
    d = (dotted labels ++ tld)%string.
Proof.
  unfold domainRegex, Plus. rewrite lang_Cat. split.
  - intros (x & t & -> & Hx & Ht). apply tld_lang in Ht. destruct Ht as [Ha Hl].
    apply lang_Cat in Hx. destruct Hx as (y & z & -> & Hy & Hz).
    apply dotted_labels_lang in Hz. destruct Hz as (labels & Hlabels & ->).
    apply lang_Cat in Hy. destruct Hy as (l & dt & -> & Hlab & Hd).
    apply lang_Class in Hd. destruct Hd as (c & -> & Hc).
    apply isDot_eq in Hc. subst c. apply labelRegex_isLabel in Hlab.
    exists (l :: labels), t. repeat split; auto; [discriminate|].
    simpl. now rewrite !str_app_assoc.
  - intros (labels & tld & Hne & Hlabels & Ha & Hl & ->).
    destruct labels as [|l labels]; [contradiction|].
    inversion Hlabels as [|? ? Hlab Hrest]; subst.
    exists (dotted (l :: labels)), tld. repeat split.
    + simpl. change (l ++ String "." (dotted labels))%string
        with (l ++ ("." ++ dotted labels))%string.
      rewrite <- str_app_assoc. apply lang_cat.
      * apply lang_cat; [now apply labelRegex_isLabel|now constructor].
      * apply dotted_labels_lang. now exists labels.
    + now apply tld_lang.
Qed.

Lemma split_no_separator (sep : ascii) (s : string) :
  allChars (fun c => negb (Ascii.eqb c sep)) s = true -> Js.split sep s = [s].
Proof.
  induction s as [|c s IH]; simpl; [reflexivity|].
  intros H. apply andb_true_iff in H. destruct H as [Hc Hs].
  apply negb_true_iff in Hc. now rewrite Hc, (IH Hs).
Qed.

Lemma split_at_separator (sep : ascii) (l rest : string) :
  allChars (fun c => negb (Ascii.eqb c sep)) l = true ->
  Js.split sep (l ++ String sep rest) = l :: Js.split sep rest.
Proof.
  induction l as [|c l IH]; simpl.
  - intros _. now rewrite Ascii.eqb_refl.
  - intros H. apply andb_true_iff in H. destruct H as [Hc Hl].
    apply negb_true_iff in Hc. now rewrite Hc, (IH Hl).
Qed.

Lemma isLabel_no_dot (l : string) :
  isLabel l = true -> allChars (fun c => negb (Ascii.eqb c ".")) l = true.
Proof.
  unfold isLabel. intros H.
  repeat (apply andb_true_iff in H; destruct H as [H ?]).
  eapply allChars_weaken; [|eassumption]. apply isAlnumHyphen_not_dot.
Qed.

Lemma alpha_no_dot (t : string) :
  allChars isAlpha t = true -> allChars (fun c => negb (Ascii.eqb c ".")) t = true.
Proof.
  apply allChars_weaken. intros c Hc. apply isAlnumHyphen_not_dot.
  unfold isAlnumHyphen. now rewrite (isAlpha_alnum c Hc).
Qed.

Lemma split_dotted (labels : list string) (tld : string) :
  Forall (fun l => isLabel l = true) labels ->
  allChars isAlpha tld = true ->
  Js.split "." (dotted labels ++ tld) = labels ++ [tld].
Proof.
  intros Hl Ht. induction Hl as [|l labels Hlab _ IH]; simpl.
  - now apply split_no_separator, alpha_no_dot.
  - rewrite str_app_assoc. simpl.
    rewrite (split_at_separator "." l _ (isLabel_no_dot l Hlab)). now rewrite IH.
Qed.

Lemma isLabel_labelOk (l : string) : isLabel l = true -> labelOk l = true.
Proof.
  unfold isLabel, labelOk. intros H.
  apply andb_true_iff in H. destruct H as [H He].
  apply andb_true_iff in H. destruct H as [H Hs].
  apply andb_true_iff in H. destruct H as [H _].
  apply andb_true_iff in H. destruct H as [H1 H63].
  apply negb_true_iff in He, Hs. apply Nat.leb_le in H1, H63.
  assert ((63 <? String.length l)%nat = false) as -> by (apply Nat.ltb_ge; lia).
  assert ((String.length l =? 0)%nat = false) as -> by (apply Nat.eqb_neq; lia).
  now rewrite Hs, He.
Qed.

Lemma alpha_no_hyphen_ends (t : string) :
  allChars isAlpha t = true ->
  Js.startsWith "-" t = false /\ Js.endsWith "-" t = false.
Proof.
  intros Ha. destruct (String.string_dec t EmptyString) as [->|Hne];
    [split; reflexivity|].
  split.
  - destruct t as [|c r]; [contradiction|]. rewrite startsWith_hyphen.
    simpl in Ha. apply andb_true_iff in Ha. destruct Ha as [Hc _].
    destruct (Ascii.eqb c "-") eqn:E; [|reflexivity].
    apply Ascii.eqb_eq in E. subst c. discriminate.
  - destruct (str_snoc t Hne) as (init & c & ->).
    rewrite endsWith_hyphen_last. rewrite allChars_append in Ha.
    apply andb_true_iff in Ha. destruct Ha as [_ Hc]. simpl in Hc.
    destruct (Ascii.eqb c "-") eqn:E; [|reflexivity].
    apply Ascii.eqb_eq in E. subst c. discriminate.
Qed.

End ValidDomainFacts.

Lemma allChars_dotted (q : ascii -> bool) (labels : list string) :
  q "."%char = true ->
  Forall (fun l => allChars q l = true) labels ->
  allChars q (dotted labels) = true.
Proof.
  intros Hq H. induction H as [|l labels Hl _ IH]; simpl; [reflexivity|].
  rewrite allChars_append, Hl. simpl. now rewrite Hq, IH.
Qed.

Lemma isTld_parts (t : string) :
  isTld t = true <->
  2 <= String.length t /\ String.length t <= 63 /\ allChars isAlpha t = true.
Proof.
  unfold isTld. rewrite !andb_true_iff, !Nat.leb_le. tauto.
Qed.

Lemma isValidDomain_sound (d : string) :
  isValidDomain d = true ->
  String.length d <= 253 /\
  exists labels tld,
    labels <> [] /\ Forall (fun l => isLabel l = true) labels /\
    isTld tld = true /\ d = (dotted labels ++ tld)%string.
Proof.
  unfold isValidDomain.
  destruct (d =? "")%string; [discriminate|].
  destruct (Regex.matches domainRegex d) eqn:M; [|discriminate]. simpl.
  apply matches_lang, domainRegex_lang in M.
  destruct M as (labels & tld & Hne & Hl & Ha & H2 & ->).
  destruct (253 <? _)%nat eqn:L; [discriminate|]. apply Nat.ltb_ge in L.
  rewrite (split_dotted labels tld Hl Ha).
  destruct (List.length (labels ++ [tld]) <? 2)%nat; [discriminate|].
  rewrite last_last.
  destruct (String.length tld <? 2)%nat; [discriminate|].
  rewrite forallb_app. intros H. apply andb_true_iff in H.
  destruct H as [_ Ht]. simpl in Ht. rewrite andb_true_r in Ht.
  split; [exact L|]. exists labels, tld. repeat split; auto.
  apply isTld_parts. repeat split; auto.
  unfold labelOk in Ht. apply andb_true_iff in Ht. destruct Ht as [Ht _].
  apply negb_true_iff, orb_false_iff in Ht. destruct Ht as [Ht _].
  now apply Nat.ltb_ge in Ht.
Qed.

Lemma isValidDomain_complete (d : string) :
  (String.length d <= 253 /\
  exists labels tld,
    labels <> [] /\ Forall (fun l => isLabel l = true) labels /\
    isTld tld = true /\ d = (dotted labels ++ tld)%string) ->
  isValidDomain d = true.
Proof.
  unfold isValidDomain.
  intros (L & labels & tld & Hne & Hl & Ht & ->).
  apply isTld_parts in Ht. destruct Ht as (H2 & H63 & Ha).
  assert ((dotted labels ++ tld =? "")%string = false) as ->.
  { apply String.eqb_neq. intros E. apply str_app_empty in E.
    destruct E as [_ ->]. simpl in H2. lia. }
  assert (Regex.matches domainRegex (dotted labels ++ tld) = true) as ->.
  { apply matches_lang, domainRegex_lang. exists labels, tld. repeat split; auto. }
  simpl.
  assert ((253 <? String.length (dotted labels ++ tld))%nat = false) as ->
    by (apply Nat.ltb_ge; exact L).
  rewrite (split_dotted labels tld Hl Ha), last_last.
  assert ((List.length (labels ++ [tld]) <? 2)%nat = false) as ->.
  { apply Nat.ltb_ge. rewrite length_app. simpl.
    destruct labels; [contradiction|simpl; lia]. }
  assert ((String.length tld <? 2)%nat = false) as -> by (apply Nat.ltb_ge; lia).
  rewrite forallb_app. apply andb_true_iff. split.
  + apply forallb_forall. intros l Hin. apply isLabel_labelOk.
    rewrite Forall_forall in Hl. now apply Hl.
  + simpl. rewrite andb_true_r. unfold labelOk.
    destruct (alpha_no_hyphen_ends tld Ha) as [-> ->].
    assert ((63 <? String.length tld)%nat = false) as -> by (apply Nat.ltb_ge; lia).
    assert ((String.length tld =? 0)%nat = false) as -> by (apply Nat.eqb_neq; lia).
    reflexivity.
Qed.

(** X1.  [isValidDomain] accepts exactly the strings of at most 253
    characters made of one or more labels, each followed by a dot, and a
    last label of 2 to 63 letters; a label before the last has 1 to 63
    letters, digits and hyphens and no hyphen at either end. *)
Theorem isValidDomain_shape (d : string) :
  isValidDomain d = true <->
  String.length d <= 253 /\
  exists labels tld,
    labels <> [] /\ Forall (fun l => isLabel l = true) labels /\
    isTld tld = true /\ d = (dotted labels ++ tld)%string.
Proof.
  split; [apply isValidDomain_sound|apply isValidDomain_complete].
Qed.

Lemma isLabel_parts (l : string) :
  isLabel l = true ->
  1 <= String.length l /\ allChars isAlnumHyphen l = true.
Proof.
  unfold isLabel. intros H.
  apply andb_true_iff in H. destruct H as [H _].
  apply andb_true_iff in H. destruct H as [H _].
  apply andb_true_iff in H. destruct H as [H Ha].
  apply andb_true_iff in H. destruct H as [H1 _].
  apply Nat.leb_le in H1. now split.
Qed.

Lemma includes_dot_append (a b : string) :
  Js.includes "." (a ++ String "." b) = true.
Proof.
  induction a as [|c a IH]; cbn [String.append Js.includes].
  - now rewrite startsWith_cons, startsWith_empty.
  - rewrite IH. apply orb_true_r.
Qed.

Lemma valid_domainChars (d : string) :
  isValidDomain d = true -> allChars isDomainChar d = true.
Proof.
  intros H. apply isValidDomain_sound in H.
  destruct H as (_ & labels & tld & _ & Hl & Ht & ->).
  apply isTld_parts in Ht. destruct Ht as (_ & _ & Ha).
  rewrite allChars_append. apply andb_true_iff. split.
  - apply allChars_dotted; [reflexivity|].
    rewrite Forall_forall in *. intros x Hx.
    apply (allChars_weaken isAlnumHyphen).
    + intros c E. unfold isDomainChar. now rewrite E.
    + now apply isLabel_parts, Hl.
  - apply (allChars_weaken isAlpha); [|exact Ha].
    intros c E. unfold isDomainChar, isAlnumHyphen.
    now rewrite (isAlpha_alnum c E).
Qed.

(** X2.  A valid domain has between 4 and 253 characters, contains a dot,
    and contains nothing but letters, digits, hyphens and dots: no white
    space, no slash, no colon. *)
Theorem isValidDomain_characters (d : string) :
  isValidDomain d = true ->
  4 <= String.length d <= 253 /\
  Js.includes "." d = true /\
  allChars isDomainChar d = true.
Proof.
  intros H. pose proof (valid_domainChars d H) as Hc.
  apply isValidDomain_sound in H.
  destruct H as (L & labels & tld & Hne & Hl & Ht & ->).
  apply isTld_parts in Ht. destruct Ht as (H2 & _ & Ha).
  destruct labels as [|l labels]; [contradiction|].
  inversion Hl as [|? ? Hlab Hrest]; subst.
  destruct (isLabel_parts l Hlab) as [H1 _].
  repeat split.
  - simpl. rewrite !str_length_app. simpl. lia.
  - exact L.
  - cbn [dotted]. rewrite str_app_assoc. apply includes_dot_append.
  - exact Hc.
Qed.

Lemma isValidDomain_characters_witness :
  4 <= String.length "sub.example.co.uk" <= 253 /\
  Js.includes "." "sub.example.co.uk" = true /\
  allChars isDomainChar "sub.example.co.uk" = true.
Proof.
  apply (isValidDomain_characters "sub.example.co.uk").
  vm_compute. reflexivity.
Defined.

(* ================================================================== *)
(** * More on [normalizeDomain] *)

Section NormalizeMore.

Lemma isWhiteSpace_lowerChar (c : ascii) :
  Js.isWhiteSpace (Js.lowerChar c) = Js.isWhiteSpace c.
Proof. destruct c as [[] [] [] [] [] [] [] []]; reflexivity. Qed.

Lemma trimStart_toLowerCase (s : string) :
  Js.trimStart (Js.toLowerCase s) = Js.toLowerCase (Js.trimStart s).
Proof.
  induction s as [|c s IH]; simpl; [reflexivity|].
  rewrite isWhiteSpace_lowerChar. now destruct (Js.isWhiteSpace c).
Qed.

Lemma trimEnd_toLowerCase (s : string) :
  Js.trimEnd (Js.toLowerCase s) = Js.toLowerCase (Js.trimEnd s).
Proof.
  induction s as [|c s IH]; simpl; [reflexivity|].
  rewrite IH, isWhiteSpace_lowerChar.
  destruct (Js.trimEnd s); simpl; [now destruct (Js.isWhiteSpace c)|reflexivity].
Qed.

Lemma trim_toLowerCase (s : string) :
  Js.trim (Js.toLowerCase s) = Js.toLowerCase (Js.trim s).
Proof.
  unfold Js.trim. now rewrite trimStart_toLowerCase, trimEnd_toLowerCase.
Qed.

(** X3.  Inputs that differ only in the case of their letters have the same
    normalized form, and so the same answer from [isBlocked] and the same
    outcome of [add]. *)
Theorem normalizeDomain_ignores_case (x y : string) (s : Store) :
  Js.toLowerCase x = Js.toLowerCase y ->
  normalizeDomain x = normalizeDomain y /\
  blockedDomainsStorage.isBlocked x s = blockedDomainsStorage.isBlocked y s /\
  blockedDomainsStorage.add x s = blockedDomainsStorage.add y s.
Proof.
  intros H.
  assert (normalizeDomain x = normalizeDomain y) as E.
  { unfold normalizeDomain. now rewrite <- !trim_toLowerCase, H. }
  unfold blockedDomainsStorage.isBlocked, blockedDomainsStorage.add.
  now rewrite E.
Qed.

Lemma normalizeDomain_ignores_case_witness :
  normalizeDomain "Example.COM" = normalizeDomain "eXAMPLE.com" /\
  blockedDomainsStorage.isBlocked "Example.COM" [mkBlockedDomain "example.com" true]
  = blockedDomainsStorage.isBlocked "eXAMPLE.com" [mkBlockedDomain "example.com" true] /\
  blockedDomainsStorage.add "Example.COM" [mkBlockedDomain "example.com" true]
  = blockedDomainsStorage.add "eXAMPLE.com" [mkBlockedDomain "example.com" true].
Proof.
  apply (normalizeDomain_ignores_case "Example.COM" "eXAMPLE.com").
  vm_compute. reflexivity.
Defined.

Lemma isDomainChar_plain (c : ascii) :
  isDomainChar c = true ->
  Js.isWhiteSpace c = false /\ notSlash c = true /\ Ascii.eqb c ":" = false.
Proof.
  destruct c as [[] [] [] [] [] [] [] []]; vm_compute; intros H;
    first [discriminate H|repeat split].
Qed.

Lemma trimStart_fixed (c : ascii) (s : string) :
  Js.isWhiteSpace c = false -> Js.trimStart (String c s) = String c s.
Proof. intros H. simpl. now rewrite H. Qed.

(** White space is only removed behind the last character that is not
    white space. *)
Lemma trimEnd_after (a : string) (c : ascii) (r : string) :
  Js.isWhiteSpace c = false ->
  Js.trimEnd (a ++ String c r) = (a ++ String c (Js.trimEnd r))%string.
Proof.
  intros Hc. induction a as [|x a IH].
  - simpl. rewrite Hc. now destruct (Js.trimEnd r).
  - cbn [String.append Js.trimEnd]. rewrite IH.
    now destruct a.
Qed.

Lemma trim_fixed (s : string) :
  allChars (fun c => negb (Js.isWhiteSpace c)) s = true -> Js.trim s = s.
Proof.
  intros H. destruct (String.string_dec s EmptyString) as [->|Hne]; [reflexivity|].
  unfold Js.trim.
  assert (Js.trimStart s = s) as ->.
  { destruct s as [|c r]; [contradiction|]. simpl in H.
    apply andb_true_iff in H. destruct H as [Hc _].
    apply negb_true_iff in Hc. now apply trimStart_fixed. }
  destruct (str_snoc s Hne) as (init & c & ->).
  rewrite allChars_append in H. apply andb_true_iff in H.
  destruct H as [_ Hc]. simpl in Hc. rewrite andb_true_r in Hc.
  apply negb_true_iff in Hc. now rewrite trimEnd_after.
Qed.

Lemma domainChars_not_space (s : string) :
  allChars isDomainChar s = true ->
  allChars (fun c => negb (Js.isWhiteSpace c)) s = true.
Proof.
  apply allChars_weaken. intros c H.
  destruct (isDomainChar_plain c H) as (-> & _). reflexivity.
Qed.

Lemma domainChars_not_slash (s : string) :
  allChars isDomainChar s = true -> allChars notSlash s = true.
Proof.
  apply allChars_weaken. intros c H. now destruct (isDomainChar_plain c H) as (_ & -> & _).
Qed.

(** A lower-case string of domain characters is changed by at most the
    removal of a leading [www.]. *)
Lemma normalizeDomain_domainChars (h : string) :
  allChars isDomainChar h = true -> lowercase h ->
  normalizeDomain h = replaceWww h.
Proof.
  intros Hc Hl. apply normalizeDomain_settled; auto.
  - now apply trim_fixed, domainChars_not_space.
  - now apply domainChars_not_slash.
Qed.

(** X4.  A lower-case valid domain that does not start with [www.] is its
    own normalized form, so [add] stores it as typed. *)
Theorem normalizeDomain_keeps_valid_domain (d : string) (s : Store) :
  isValidDomain d = true -> lowercase d -> noWww d ->
  normalizeDomain d = d /\
  (~ present d s ->
   blockedDomainsStorage.add d s = (inr tt, s ++ [mkBlockedDomain d true])).
Proof.
  intros Hv Hl Hw.
  pose proof (valid_domainChars d Hv) as Hc.
  assert (normalizeDomain d = d) as E.
  { rewrite (normalizeDomain_domainChars d Hc Hl).
    unfold replaceWww. unfold noWww in Hw. rewrite stripPrefix_startsWith in Hw.
    now destruct (Js.stripPrefix "www." d). }
  split; [exact E|]. intros Habs.
  assert (normalizeDomain d <> "") as Hne.
  { rewrite E. intros ->. discriminate. }
  rewrite (add_valid d s Hne); [|now rewrite E].
  rewrite E.
  assert (existsb (fun e => (domain e =? d)%string) s = false) as ->; [|reflexivity].
  destruct (existsb _ s) eqn:X; [|reflexivity].
  exfalso. apply Habs. now apply existsb_present.
Qed.

Lemma normalizeDomain_keeps_valid_domain_witness :
  normalizeDomain "sub.example.co.uk" = "sub.example.co.uk" /\
  (~ present "sub.example.co.uk" [mkBlockedDomain "focus.org" false] ->
   blockedDomainsStorage.add "sub.example.co.uk" [mkBlockedDomain "focus.org" false]
   = (inr tt, [mkBlockedDomain "focus.org" false]
              ++ [mkBlockedDomain "sub.example.co.uk" true])).
Proof.
  apply (normalizeDomain_keeps_valid_domain "sub.example.co.uk"
           [mkBlockedDomain "focus.org" false]);
    vm_compute; reflexivity.
Defined.

End NormalizeMore.

(* ================================================================== *)
(** * [normalizeDomain] on URLs *)

Section NormalizeUrl.

Lemma toLowerCase_append (a b : string) :
  Js.toLowerCase (a ++ b) = (Js.toLowerCase a ++ Js.toLowerCase b)%string.
Proof. induction a as [|c a IH]; simpl; congruence. Qed.

Lemma stripPrefix_self (p t : string) : Js.stripPrefix p (p ++ t) = Some t.
Proof.
  induction p as [|c p IH]; simpl; [reflexivity|].
  now rewrite Ascii.eqb_refl.
Qed.

Lemma stripPrefix_app_some (p h h' r : string) :
  Js.stripPrefix p h = Some h' ->
  Js.stripPrefix p (h ++ r) = Some (h' ++ r)%string.
Proof.
  intros H. apply stripPrefix_append in H. subst h.
  rewrite str_app_assoc. apply stripPrefix_self.
Qed.

(** A prefix that does not start [h] does not start [h] followed by a
    character that the prefix does not contain. *)
Lemma stripPrefix_app_none (p : string) :
  forall (h : string) (c : ascii) (r : string),
    Js.stripPrefix p h = None ->
    allChars (fun x => negb (Ascii.eqb x c)) p = true ->
    Js.stripPrefix p (h ++ String c r) = None.
Proof.
  induction p as [|a p IH]; intros h c r Hn Hp; [discriminate|].
  simpl in Hp. apply andb_true_iff in Hp. destruct Hp as [Ha Hp].
  apply negb_true_iff in Ha.
  destruct h as [|b h]; simpl in *.
  - now rewrite Ha.
  - destruct (Ascii.eqb a b); [now apply IH|reflexivity].
Qed.

Lemma stripPrefix_longer (p1 p2 s : string) :
  Js.stripPrefix (p1 ++ p2) s =
  match Js.stripPrefix p1 s with
  | Some t => Js.stripPrefix p2 t
  | None => None
  end.
Proof.
  revert s. induction p1 as [|a p1 IH]; intros s; simpl; [reflexivity|].
  destruct s as [|b s]; [reflexivity|].
  destruct (Ascii.eqb a b); [apply IH|reflexivity].
Qed.

(** What may follow the host in the texts considered: nothing, or a slash
    and anything. *)
Lemma after_host_cases (rest : string) :
  rest = EmptyString \/ Js.startsWith "/" rest = true ->
  rest = EmptyString \/ exists p, rest = String "/" p.
Proof.
  intros [->|H]; [now left|right].
  destruct rest as [|c p]; [discriminate|].
  rewrite startsWith_cons in H. destruct (Ascii.eqb "/" c) eqn:E; [|discriminate].
  apply Ascii.eqb_eq in E. subst c. now exists p.
Qed.

Lemma host_not_prefixed (p0 p1 h r : string) :
  allChars isDomainChar h = true ->
  allChars isDomainChar p0 = false ->
  allChars notSlash p0 = true ->
  r = EmptyString \/ (exists p, r = String "/" p) ->
  Js.stripPrefix (p0 ++ p1) (h ++ r) = None.
Proof.
  intros Hh Hp0 Hs Hr. rewrite stripPrefix_longer.
  pose proof (allChars_no_prefix isDomainChar p0 h Hp0 Hh) as Hn.
  destruct Hr as [->|(p & ->)].
  - now rewrite str_app_nil_r, Hn.
  - now rewrite (stripPrefix_app_none p0 h "/" p Hn Hs).
Qed.

Lemma replaceScheme_host (scheme h r : string) :
  In scheme ["https://"; "http://"; ""] ->
  allChars isDomainChar h = true ->
  r = EmptyString \/ (exists p, r = String "/" p) ->
  replaceScheme (scheme ++ h ++ r) = (h ++ r)%string.
Proof.
  intros Hs Hh Hr. unfold replaceScheme.
  destruct Hs as [<-|[<-|[<-|[]]]].
  - now rewrite stripPrefix_self.
  - now rewrite (stripPrefix_self "http://").
  - cbn [String.append].
    pose proof (host_not_prefixed "https:" "//" h r Hh eq_refl eq_refl Hr) as H1.
    pose proof (host_not_prefixed "http:" "//" h r Hh eq_refl eq_refl Hr) as H2.
    cbn [String.append] in H1, H2. now rewrite H1, H2.
Qed.

Lemma replaceWww_host (h r : string) :
  r = EmptyString \/ (exists p, r = String "/" p) ->
  replaceWww (h ++ r) = (replaceWww h ++ r)%string.
Proof.
  intros Hr. unfold replaceWww.
  destruct (Js.stripPrefix "www." h) as [h'|] eqn:E.
  - now rewrite (stripPrefix_app_some _ _ _ r E).
  - destruct Hr as [->|(p & ->)].
    + now rewrite str_app_nil_r, E.
    + now rewrite (stripPrefix_app_none "www." h "/" p E).
Qed.

(** Removing a slash at the end does not change what stands before the
    first slash: the split decides alone. *)
Lemma firstSegment_replaceTrailingSlash (s : string) :
  firstSegment (replaceTrailingSlash s) = firstSegment s.
Proof.
  induction s as [|c s IH]; [reflexivity|].
  destruct s as [|c' s].
  - cbn [replaceTrailingSlash]. rewrite firstSegment_cons.
    destruct (Ascii.eqb c "/") eqn:E; [reflexivity|].
    now rewrite firstSegment_cons, E.
  - change (replaceTrailingSlash (String c (String c' s)))
      with (String c (replaceTrailingSlash (String c' s))).
    rewrite !(firstSegment_cons c). now rewrite IH.
Qed.

Lemma firstSegment_before_slash (w p : string) :
  allChars notSlash w = true -> firstSegment (w ++ String "/" p) = w.
Proof.
  induction w as [|c w IH]; intros H.
  - simpl. now rewrite firstSegment_cons.
  - simpl in H. apply andb_true_iff in H. destruct H as [Hc Hw].
    cbn [String.append]. rewrite firstSegment_cons.
    unfold notSlash in Hc. apply negb_true_iff in Hc. now rewrite Hc, IH.
Qed.

Lemma trim_host (scheme h rest : string) :
  In scheme ["https://"; "http://"; ""] ->
  h <> EmptyString -> allChars isDomainChar h = true ->
  rest = EmptyString \/ (exists p, rest = String "/" p) ->
  exists r, (r = EmptyString \/ exists p, r = String "/" p) /\
            Js.trim (scheme ++ h ++ rest) = (scheme ++ h ++ r)%string.
Proof.
  intros Hs Hne Hh Hr.
  destruct (str_snoc h Hne) as (hi & c & ->).
  rewrite allChars_append in Hh. apply andb_true_iff in Hh.
  destruct Hh as [Hhi Hc]. simpl in Hc. rewrite andb_true_r in Hc.
  destruct (isDomainChar_plain c Hc) as (Hws & _ & _).
  exists (Js.trimEnd rest). split.
  - destruct Hr as [->|(p & ->)]; [now left|right].
    exists (Js.trimEnd p). exact (trimEnd_after "" "/" p eq_refl).
  - unfold Js.trim.
    assert (Js.trimStart (scheme ++ (hi ++ String c "") ++ rest)
            = (scheme ++ (hi ++ String c "") ++ rest)%string) as ->.
    { destruct Hs as [<-|[<-|[<-|[]]]]; try reflexivity.
      cbn [String.append]. destruct hi as [|x hi].
      - simpl. now rewrite Hws.
      - simpl in Hhi. apply andb_true_iff in Hhi. destruct Hhi as [Hx _].
        destruct (isDomainChar_plain x Hx) as (Hxw & _ & _).
        simpl. now rewrite Hxw. }
    rewrite !str_app_assoc, <- !(str_app_assoc scheme hi).
    cbn [String.append]. now rewrite trimEnd_after.
Qed.

Lemma normalizeDomain_host_text (scheme h rest : string) :
  In scheme ["https://"; "http://"; ""] ->
  h <> "" -> allChars isDomainChar h = true -> lowercase h ->
  rest = "" \/ Js.startsWith "/" rest = true ->
  normalizeDomain (scheme ++ h ++ rest) = replaceWww h.
Proof.
  intros Hs Hne Hh Hl Hrest. apply after_host_cases in Hrest.
  destruct (trim_host scheme h rest Hs Hne Hh Hrest) as (r & Hr & Ht).
  unfold normalizeDomain. rewrite Ht, !toLowerCase_append, Hl.
  assert (Js.toLowerCase scheme = scheme) as ->
    by (destruct Hs as [<-|[<-|[<-|[]]]]; reflexivity).
  assert (Js.toLowerCase r = EmptyString \/
          exists p, Js.toLowerCase r = String "/" p) as Hr'.
  { destruct Hr as [->|(p & ->)]; [now left|right]. now exists (Js.toLowerCase p). }
  rewrite (replaceScheme_host scheme h _ Hs Hh Hr'), (replaceWww_host h _ Hr').
  rewrite firstSegment_replaceTrailingSlash.
  pose proof (allChars_replaceWww notSlash h (domainChars_not_slash h Hh)) as Hw.
  destruct Hr' as [->|(p & ->)].
  - rewrite str_app_nil_r. now apply firstSegment_fixed.
  - now apply firstSegment_before_slash.
Qed.

(** X5.  For a lower-case host name [h] of domain characters, alone or
    followed by a slash and anything, with or without an [http://] or
    [https://] in front, [normalizeDomain] yields [h] without one leading
    [www.]: the scheme, the path and a trailing slash are all dropped. *)
Theorem normalizeDomain_url (h rest : string) :
  h <> "" -> allChars isDomainChar h = true -> lowercase h ->
  rest = "" \/ Js.startsWith "/" rest = true ->
  normalizeDomain ("https://" ++ h ++ rest) = replaceWww h /\
  normalizeDomain ("http://" ++ h ++ rest) = replaceWww h /\
  normalizeDomain (h ++ rest) = replaceWww h.
Proof.
  intros Hne Hh Hl Hrest. repeat split.
  - apply (normalizeDomain_host_text "https://"); simpl; auto.
  - apply (normalizeDomain_host_text "http://"); simpl; auto.
  - apply (normalizeDomain_host_text ""); simpl; auto.
Qed.

Lemma normalizeDomain_url_witness :
  normalizeDomain ("https://" ++ "www.example.com" ++ "/a/b?c=d")
  = replaceWww "www.example.com" /\
  normalizeDomain ("http://" ++ "www.example.com" ++ "/a/b?c=d")
  = replaceWww "www.example.com" /\
  normalizeDomain ("www.example.com" ++ "/a/b?c=d") = replaceWww "www.example.com".
Proof.
  apply (normalizeDomain_url "www.example.com" "/a/b?c=d").
  - discriminate.
  - vm_compute. reflexivity.
  - vm_compute. reflexivity.
  - right. vm_compute. reflexivity.
Defined.

End NormalizeUrl.

(* ================================================================== *)
(** * How the store operations compose *)

Section StoreComposition.

(** What a resolved [add] did. *)
Lemma add_resolved (d : string) (s : Store) :
  fst (blockedDomainsStorage.add d s) = inr tt ->
  normalizeDomain d <> EmptyString /\
  isValidDomain (normalizeDomain d) = true /\
  ~ present (normalizeDomain d) s /\
  after (Add d) s = s ++ [mkBlockedDomain (normalizeDomain d) true].
Proof.
  unfold after, perform.
  destruct (invalid_dec (normalizeDomain d)) as [H|[H1 H2]].
  - rewrite (add_invalid _ _ H). discriminate.
  - rewrite (add_valid _ _ H1 H2).
    destruct (existsb _ s) eqn:E; [discriminate|]. intros _.
    repeat split; auto.
    rewrite <- existsb_present, E. discriminate.
Qed.

Lemma filter_absent (n : string) (s : Store) :
  ~ present n s ->
  filter (fun d => negb (domain d =? n)%string) s = s.
Proof.
  intros H. apply filter_fixed. intros e He.
  apply negb_true_iff, String.eqb_neq. intros E. apply H. now exists e.
Qed.

(** X6.  Removing the normalized domain right after a resolved [add] gives
    back the collection as it was before the [add]. *)
Theorem add_then_remove_restores (d : string) (s : Store) :
  fst (blockedDomainsStorage.add d s) = inr tt ->
  after (Remove (normalizeDomain d)) (after (Add d) s) = s.
Proof.
  intros H. destruct (add_resolved d s H) as (_ & _ & Habs & ->).
  rewrite after_Remove, filter_app, (filter_absent _ _ Habs). simpl.
  rewrite String.eqb_refl. simpl. apply app_nil_r.
Qed.

Lemma add_then_remove_restores_witness :
  after (Remove (normalizeDomain " https://WWW.Example.com/path "))
        (after (Add " https://WWW.Example.com/path ")
               [mkBlockedDomain "focus.org" false])
  = [mkBlockedDomain "focus.org" false].
Proof.
  apply (add_then_remove_restores " https://WWW.Example.com/path "
           [mkBlockedDomain "focus.org" false]).
  vm_compute. reflexivity.
Defined.

(** X7.  After a resolved [add], adding any input with the same normalized
    form is rejected with [DuplicateEntry] and changes nothing. *)
Theorem add_again_is_duplicate (d d' : string) (s : Store) :
  fst (blockedDomainsStorage.add d s) = inr tt ->
  normalizeDomain d' = normalizeDomain d ->
  blockedDomainsStorage.add d' (after (Add d) s)
  = (inl DuplicateEntry, after (Add d) s).
Proof.
  intros H E. destruct (add_resolved d s H) as (Hne & Hv & _ & ->).
  rewrite add_valid; rewrite E; auto.
  rewrite existsb_app. simpl. rewrite String.eqb_refl.
  now rewrite orb_true_r.
Qed.

Lemma add_again_is_duplicate_witness :
  blockedDomainsStorage.add "EXAMPLE.com/" (after (Add "https://www.example.com") [])
  = (inl DuplicateEntry, after (Add "https://www.example.com") []).
Proof.
  apply (add_again_is_duplicate "https://www.example.com" "EXAMPLE.com/" []);
    vm_compute; reflexivity.
Defined.

Lemma find_filter_other (m n : string) (s : Store) :
  m <> n ->
  find (fun d => (domain d =? m)%string)
       (filter (fun d => negb (domain d =? n)%string) s)
  = find (fun d => (domain d =? m)%string) s.
Proof.
  intros Hmn. induction s as [|e s IH]; simpl; [reflexivity|].
  destruct (domain e =? n)%string eqn:En; simpl.
  - apply String.eqb_eq in En.
    assert ((domain e =? m)%string = false) as ->; [|exact IH].
    apply String.eqb_neq. congruence.
  - now rewrite IH.
Qed.

Lemma find_flip_other (m n : string) (s : Store) :
  m <> n ->
  find (fun d => (domain d =? m)%string) (map (flipIf n) s)
  = find (fun d => (domain d =? m)%string) s.
Proof.
  intros Hmn. induction s as [|e s IH]; simpl; [reflexivity|].
  rewrite flipIf_domain. destruct (domain e =? m)%string eqn:Em; [|exact IH].
  apply String.eqb_eq in Em. f_equal. apply flipIf_fixed. congruence.
Qed.

Lemma find_flip_same (n : string) (s : Store) :
  find (fun d => (domain d =? n)%string) (map (flipIf n) s)
  = option_map (flipIf n) (find (fun d => (domain d =? n)%string) s).
Proof.
  induction s as [|e s IH]; simpl; [reflexivity|].
  rewrite flipIf_domain. now destruct (domain e =? n)%string.
Qed.

Lemma find_app_other (m : string) (s : Store) (e : BlockedDomain) :
  domain e <> m ->
  find (fun d => (domain d =? m)%string) (s ++ [e])
  = find (fun d => (domain d =? m)%string) s.
Proof.
  intros H. induction s as [|a s IH]; simpl.
  - apply String.eqb_neq in H. now rewrite H.
  - now destruct (domain a =? m)%string.
Qed.

Lemma isBlocked_find (x : string) (s : Store) :
  fst (blockedDomainsStorage.isBlocked x s)
  = inr (match find (fun d => (domain d =? normalizeDomain x)%string) s with
         | Some e => enabled e
         | None => false
         end).
Proof.
  unfold blockedDomainsStorage.isBlocked, storage.get.
  now destruct (find _ s).
Qed.

Lemma after_other (op : Op) (m : string) (s : Store) :
  target op <> m ->
  find (fun d => (domain d =? m)%string) (after op s)
  = find (fun d => (domain d =? m)%string) s.
Proof.
  intros H. destruct op as [d|n|n]; simpl in H.
  - destruct (after_Add d s) as [->|[-> _]]; [reflexivity|].
    now apply find_app_other.
  - rewrite after_Remove. apply find_filter_other. congruence.
  - rewrite after_Toggle. apply find_flip_other. congruence.
Qed.

(** X8.  Operations on other domains do not change the answer of
    [isBlocked]: if no operation of a sequence is about the normalized form
    of [y], then [isBlocked y] answers the same before and after it. *)
Theorem isBlocked_unaffected_by_others (ops : list Op) (y : string) (s : Store) :
  Forall (fun op => target op <> normalizeDomain y) ops ->
  fst (blockedDomainsStorage.isBlocked y (run ops s))
  = fst (blockedDomainsStorage.isBlocked y s).
Proof.
  intros H. revert s. induction H as [|op ops Hop _ IH]; intros s; [reflexivity|].
  rewrite run_cons, IH, !isBlocked_find. now rewrite (after_other op _ s Hop).
Qed.

Lemma isBlocked_unaffected_by_others_witness :
  fst (blockedDomainsStorage.isBlocked "https://Example.com/"
         (run [Add "focus.org"; Toggle "www.example.com"; Remove "focus.org";
               Add "sub.example.com"]
              [mkBlockedDomain "example.com" true]))
  = fst (blockedDomainsStorage.isBlocked "https://Example.com/"
           [mkBlockedDomain "example.com" true]).
Proof.
  apply (isBlocked_unaffected_by_others
           [Add "focus.org"; Toggle "www.example.com"; Remove "focus.org";
            Add "sub.example.com"]
           "https://Example.com/" [mkBlockedDomain "example.com" true]).
  repeat constructor; vm_compute; discriminate.
Defined.

(** X9.  After [remove] of the normalized form of [x], [isBlocked x]
    answers [false] and no entry has that domain; [toggle] of the
    normalized form of [x] negates the answer of [isBlocked x] when an
    entry has that domain. *)
Theorem remove_and_toggle_decide_isBlocked (x : string) (s : Store) :
  let n := normalizeDomain x in
  fst (blockedDomainsStorage.isBlocked x (after (Remove n) s)) = inr false /\
  ~ present n (after (Remove n) s) /\
  (present n s ->
   exists b, fst (blockedDomainsStorage.isBlocked x s) = inr b /\
             fst (blockedDomainsStorage.isBlocked x (after (Toggle n) s))
             = inr (negb b)).
Proof.
  cbv zeta.
  assert (~ present (normalizeDomain x) (after (Remove (normalizeDomain x)) s)) as Hgone.
  { rewrite after_Remove. intros (e & He & Hd). apply filter_In in He.
    destruct He as [_ He]. apply negb_true_iff, String.eqb_neq in He. contradiction. }
  split; [|split; [exact Hgone|]].
  - rewrite isBlocked_find. apply find_none_absent in Hgone. now rewrite Hgone.
  - intros Hp. rewrite !isBlocked_find, after_Toggle, find_flip_same.
    destruct (find _ s) as [e|] eqn:F.
    + exists (enabled e). split; [reflexivity|].
      apply find_some_present in F. destruct F as [_ Fd].
      simpl. unfold flipIf. apply String.eqb_eq in Fd. now rewrite Fd.
    + apply find_none_absent in F. contradiction.
Qed.

(** X10.  [add] lets only valid domains in: from a collection whose
    domains all pass [isValidDomain], every sequence of operations leads to
    a collection whose domains all pass [isValidDomain]. *)
Theorem run_keeps_domains_valid (ops : list Op) (start : Store) :
  Forall (fun e => isValidDomain (domain e) = true) start ->
  Forall (fun e => isValidDomain (domain e) = true) (run ops start).
Proof.
  revert start. induction ops as [|op ops IH]; intros start H; [exact H|].
  rewrite run_cons. apply IH. destruct op as [d|n|n].
  - destruct (invalid_dec (normalizeDomain d)) as [Hi|[H1 H2]].
    + unfold after, perform. now rewrite (add_invalid _ _ Hi).
    + destruct (after_Add d start) as [->|[-> _]]; [exact H|].
      apply Forall_app. split; [exact H|]. now repeat constructor.
  - rewrite after_Remove. rewrite Forall_forall in *.
    intros e He. apply filter_In in He. now apply H.
  - rewrite after_Toggle. rewrite Forall_forall in *.
    intros e He. apply in_map_iff in He. destruct He as (e0 & <- & He0).
    rewrite flipIf_domain. now apply H.
Qed.

Lemma run_keeps_domains_valid_witness :
  Forall (fun e => isValidDomain (domain e) = true)
    (run [Add "not a domain"; Add " https://WWW.Example.com/path ";
          Toggle "focus.org"; Add "localhost"; Remove "example.com"]
         [mkBlockedDomain "focus.org" false]).
Proof.
  apply (run_keeps_domains_valid _ [mkBlockedDomain "focus.org" false]).
  constructor; [vm_compute; reflexivity|constructor].
Defined.

End StoreComposition.

(* ================================================================== *)
(** * Persistence round trip *)

Section RoundTrip.

Import JsonReader JsonWriter.

Lemma readChars_escapeChar (c : ascii) (tail : string) :
  readChars (escapeChar c ++ tail) = consTo c (readChars tail).
Proof. destruct c as [[] [] [] [] [] [] [] []]; reflexivity. Qed.

Lemma readChars_escaped (s rest : string) :
  readChars (escaped s (String dquote rest)) = Some (s, rest).
Proof.
  induction s as [|c s IH]; [reflexivity|].
  cbn [escaped]. now rewrite readChars_escapeChar, IH.
Qed.

Lemma readValue_quoted (fuel : nat) (s rest : string) :
  readValue (S fuel) (quoted s rest) = Some (Json.Str s, rest).
Proof.
  unfold quoted. cbn [readValue skipWs]. change (isWs dquote) with false.
  cbn iota. change (Ascii.eqb dquote "[") with false.
  change (Ascii.eqb dquote "{") with false.
  rewrite Ascii.eqb_refl. cbn iota. now rewrite readChars_escaped.
Qed.

Lemma readValue_boolean (fuel : nat) (b : bool) (rest : string) :
  readValue (S fuel) (boolean b (String "}" rest))
  = Some (Json.Bool b, String "}" rest).
Proof. destruct b; reflexivity. Qed.

Lemma readMembers_entry (fuel : nat) (e : BlockedDomain) (rest : string) :
  readMembers (S (S (S fuel)))
    (quoted "domain" (String ":" (quoted (domain e)
       (String "," (quoted "enabled" (String ":" (boolean (enabled e)
          (String "}" rest))))))))
  = Some ([("domain", Json.Str (domain e)); ("enabled", Json.Bool (enabled e))], rest).
Proof.
  cbn [readMembers]. unfold quoted at 1.
  cbn [skipWs]. change (isWs dquote) with false. cbn iota.
  rewrite Ascii.eqb_refl. cbn iota. rewrite readChars_escaped.
  cbn [skipWs]. change (isWs ":") with false. cbn iota.
  rewrite readValue_quoted.
  cbn [skipWs]. change (isWs ",") with false. cbn iota.
  change (Ascii.eqb "," ",") with true. cbn iota.
  cbn [readMembers]. unfold quoted at 1.
  cbn [skipWs]. change (isWs dquote) with false. cbn iota.
  rewrite Ascii.eqb_refl. cbn iota. rewrite readChars_escaped.
  cbn [skipWs]. change (isWs ":") with false. cbn iota.
  rewrite readValue_boolean. reflexivity.
Qed.

Lemma readValue_entry (fuel : nat) (e : BlockedDomain) (rest : string) :
  readValue (S (S (S (S fuel)))) (entry e rest) = Some (entryValue e, rest).
Proof.
  unfold entry. cbn [readValue skipWs]. change (isWs "{") with false. cbn iota.
  change (Ascii.eqb "{" "[") with false. change (Ascii.eqb "{" "{") with true.
  cbn iota. unfold quoted at 1. cbn [skipWs].
  change (isWs dquote) with false. cbn iota.
  fold (quoted "domain" (String ":" (quoted (domain e)
       (String "," (quoted "enabled" (String ":" (boolean (enabled e)
          (String "}" rest)))))))).
  now rewrite readMembers_entry.
Qed.

Lemma readElements_entries (l : list BlockedDomain) :
  forall (e : BlockedDomain) (extra : nat) (rest : string),
    readElements (List.length l + 5 + extra) (entries (e :: l) (String "]" rest))
    = Some (map entryValue (e :: l), rest).
Proof.
  induction l as [|e' l IH]; intros e extra rest.
  - cbn [List.length Nat.add entries readElements].
    rewrite readValue_entry. reflexivity.
  - cbn [List.length Nat.add readElements].
    change (entries (e :: e' :: l) (String "]" rest))
      with (entry e (String "," (entries (e' :: l) (String "]" rest)))).
    replace (List.length l + 5 + extra) with (S (S (S (S (List.length l + 1 + extra)))))
      by lia.
    rewrite readValue_entry.
    cbn [skipWs]. change (isWs ",") with false. cbn iota.
    change (Ascii.eqb "," ",") with true. cbn iota.
    replace (S (S (S (S (List.length l + 1 + extra)))))
      with (List.length l + 5 + extra) by lia.
    now rewrite IH.
Qed.

Lemma entry_length (e : BlockedDomain) (rest : string) :
  String.length rest < String.length (entry e rest).
Proof.
  unfold entry, boolean. cbn [String.length].
  assert (forall s r, String.length r <= String.length (quoted s r)) as Hq.
  { intros s r. unfold quoted. cbn [String.length].
    induction s as [|c s IHs]; cbn [escaped String.length]; [lia|].
    rewrite str_length_app. lia. }
  pose proof (Hq "domain" (String ":" (quoted (domain e)
    (String "," (quoted "enabled" (String ":"
      ((if enabled e then "true" else "false") ++ String "}" rest))))))) as H1.
  pose proof (Hq (domain e) (String "," (quoted "enabled" (String ":"
      ((if enabled e then "true" else "false") ++ String "}" rest))))) as H2.
  pose proof (Hq "enabled" (String ":"
      ((if enabled e then "true" else "false") ++ String "}" rest))) as H3.
  cbn [String.length] in *. rewrite str_length_app in *.
  cbn [String.length] in *. lia.
Qed.

Lemma entries_length (l : list BlockedDomain) (rest : string) :
  List.length l + String.length rest <= String.length (entries l rest).
Proof.
  induction l as [|e l IH]; [simpl; lia|].
  cbn [entries List.length].
  destruct l as [|e' l].
  - pose proof (entry_length e rest). cbn [List.length]. lia.
  - pose proof (entry_length e (String "," (entries (e' :: l) rest))) as H.
    cbn [String.length List.length] in *. lia.
Qed.

(** The reference reader reads back what the reference writer wrote. *)
Lemma parse_stringify (value : Store) :
  parse (stringify value) = Some (Json.Array (map entryValue value)).
Proof.
  unfold parse, stringify. destruct value as [|e l]; [reflexivity|].
  pose proof (entries_length (e :: l) "]") as Hlen.
  cbn [String.length List.length] in *.
  set (text := entries (e :: l) "]") in *.
  replace (2 * S (String.length text) + 2)
    with (S (List.length l + 5 + (2 * String.length text - List.length l - 2)))
    by lia.
  cbn [readValue skipWs]. change (isWs "[") with false. cbn iota.
  change (Ascii.eqb "[" "[") with true. cbn iota.
  assert (exists r, text = String "{" r) as (r & Hr) by (unfold text, entries, entry; eauto).
  rewrite Hr. cbn [skipWs]. change (isWs "{") with false. cbn iota.
  rewrite <- Hr. unfold text.
  now rewrite (readElements_entries l e).
Qed.

Lemma asStore_entryValues (value : Store) :
  asStore (map entryValue value) = Some value.
Proof.
  induction value as [|[d b] l IH]; [reflexivity|].
  cbn [map asStore]. rewrite IH. reflexivity.
Qed.

Lemma filter_entryValues (value : Store) :
  filter isEntry (map entryValue value) = map entryValue value.
Proof.
  induction value as [|e l IH]; [reflexivity|].
  cbn [map filter]. change (isEntry (entryValue e)) with true. now rewrite IH.
Qed.

(** X11.  Persistence round trip: what [serialize] writes, [deserialize]
    reads back as the same collection, entry by entry and in the same
    order, whatever characters the domains contain. *)
Theorem deserialize_serialize (value : Store) :
  deserialize JsonReader.parse (Text (serialize value)) = map entryValue value /\
  asStore (deserialize JsonReader.parse (Text (serialize value))) = Some value.
Proof.
  assert (deserialize parse (Text (serialize value)) = map entryValue value) as E.
  { unfold deserialize, serialize.
    assert ((stringify value =? "undefined")%string = false) as -> by reflexivity.
    assert ((stringify value =? "null")%string = false) as -> by reflexivity.
    assert ((Js.trim (stringify value) =? "")%string = false) as ->.
    { unfold stringify, Js.trim. rewrite trimStart_fixed by reflexivity.
      pose proof (trimEnd_after "" "[" (entries value "]") eq_refl) as Ht.
      cbn [String.append] in Ht. now rewrite Ht. }
    rewrite parse_stringify. cbn [orb].
    destruct value as [|e l]; [reflexivity|].
    change (map entryValue (e :: l)) with (entryValue e :: map entryValue l).
    unfold entryValue at 1. fold (entryValue e).
    change (entryValue e :: map entryValue l) with (map entryValue (e :: l)).
    apply filter_entryValues. }
  split; [exact E|]. rewrite E. apply asStore_entryValues.
Qed.

End RoundTrip.

(* ================================================================== *)
(** * What a loaded value looks like *)

Section LoadedValue.

Lemma asBlockedDomain_entry (item : Json.value) :
  isEntry item = true -> exists e, asBlockedDomain item = Some e.
Proof.
  intros H. apply isEntry_iff in H. destruct H as (members & d & b & -> & Hd & Hb).
  exists (mkBlockedDomain d b). unfold asBlockedDomain. simpl. now rewrite Hd, Hb.
Qed.

Lemma asStore_filter (items : list Json.value) :
  exists s, asStore (filter isEntry items) = Some s.
Proof.
  induction items as [|item items (s & IH)]; simpl; [now exists []|].
  destruct (isEntry item) eqn:E; [|now exists s].
  destruct (asBlockedDomain_entry item E) as (e & He).
  exists (e :: s). simpl. now rewrite He, IH.
Qed.

Lemma asBlockedDomain_migrate (v : Json.value) :
  asBlockedDomain (migrate v) =
  match v with
  | Json.Str d => Some (mkBlockedDomain d true)
  | _ => None
  end.
Proof. now destruct v. Qed.

Lemma asStore_migrate_strings (strings : list string) :
  asStore (map migrate (map Json.Str strings))
  = Some (map (fun d => mkBlockedDomain d true) strings).
Proof.
  induction strings as [|d l IH]; [reflexivity|].
  cbn [map asStore]. now rewrite asBlockedDomain_migrate, IH.
Qed.

Lemma asStore_migrate_none (items : list Json.value) :
  asStore (map migrate items) = None <->
  exists v, In v items /\ forall d, v <> Json.Str d.
Proof.
  induction items as [|v items IH]; cbn [map asStore].
  - split; [discriminate|intros (v & [] & _)].
  - rewrite asBlockedDomain_migrate. destruct v as [| | |d| |];
      try (split; [intros _; eexists; split; [now left|discriminate]|reflexivity]).
    destruct (asStore (map migrate items)) as [s|] eqn:E.
    + split; [discriminate|]. intros (v & [<-|Hin] & Hv).
      * now destruct (Hv d).
      * assert (Some s = None) as H by (apply IH; now exists v).
        discriminate H.
    + split; [|reflexivity]. intros _.
      destruct (proj1 IH eq_refl) as (v & Hin & Hv). exists v. split; [now right|exact Hv].
Qed.

(** X12.  A loaded value fails to be a typed collection in one case only:
    the parsed array starts with a string, so that the migration branch is
    taken, and one of its later elements is not a string.  The object
    branch and every other input give a typed collection. *)
Theorem deserialize_ill_typed_iff
  (JSON_parse : string -> option Json.value) (text : Persisted) :
  asStore (deserialize JSON_parse text) = None <->
  exists t first rest,
    text = Text t /\
    t <> "undefined" /\ t <> "null" /\ Js.trim t <> "" /\
    JSON_parse t = Some (Json.Array (Json.Str first :: rest)) /\
    exists v, In v rest /\ forall d, v <> Json.Str d.
Proof.
  split.
  - destruct text as [| |t]; try discriminate. simpl.
    destruct (t =? "undefined")%string eqn:E1; [discriminate|].
    destruct (t =? "null")%string eqn:E2; [discriminate|].
    destruct (Js.trim t =? "")%string eqn:E3; [discriminate|]. simpl.
    apply String.eqb_neq in E1, E2, E3.
    destruct (JSON_parse t) as [[| | | |items|]|] eqn:P; try discriminate.
    destruct items as [|[| | |first| |] rest];
      try (intros H;
           match type of H with
           | asStore (filter isEntry ?l) = None =>
               let st := fresh "st" in let Hst := fresh "Hst" in
               destruct (asStore_filter l) as (st & Hst); rewrite Hst in H;
               discriminate H
           end).
    intros H. apply asStore_migrate_none in H.
    destruct H as (v & [<-|Hin] & Hv); [now destruct (Hv first)|].
    exists t, first, rest. repeat split; auto. now exists v.
  - intros (t & first & rest & -> & H1 & H2 & H3 & P & v & Hin & Hv).
    unfold deserialize. apply String.eqb_neq in H1, H2, H3.
    rewrite H1, H2, H3, P. cbn [orb].
    apply asStore_migrate_none. exists v. split; [now right|exact Hv].
Qed.

(** X13.  A legacy list of strings is loaded as one enabled entry per
    string, in the same order and with the strings as they are: they are
    neither normalized nor validated, and repeated ones are kept. *)
Theorem legacy_list_migrates
  (JSON_parse : string -> option Json.value) (t first : string)
  (others : list string) :
  t <> "undefined" -> t <> "null" -> Js.trim t <> "" ->
  JSON_parse t = Some (Json.Array (map Json.Str (first :: others))) ->
  asStore (deserialize JSON_parse (Text t))
  = Some (map (fun d => mkBlockedDomain d true) (first :: others)).
Proof.
  intros H1 H2 H3 P. unfold deserialize.
  apply String.eqb_neq in H1, H2, H3. rewrite H1, H2, H3, P. cbn [orb].
  change (Json.Str first :: map Json.Str others) with (map Json.Str (first :: others)).
  cbn [map]. fold (map Json.Str others).
  change (migrate (Json.Str first) :: map migrate (map Json.Str others))
    with (map migrate (map Json.Str (first :: others))).
  apply asStore_migrate_strings.
Qed.

Lemma legacy_list_migrates_witness :
  asStore (deserialize JsonReader.parse
             (Text (JsonReader.js "['a.com', 'WWW.A.com/', 'a.com']")))
  = Some (map (fun d => mkBlockedDomain d true) ("a.com" :: ["WWW.A.com/"; "a.com"])).
Proof.
  apply (legacy_list_migrates JsonReader.parse
           (JsonReader.js "['a.com', 'WWW.A.com/', 'a.com']")
           "a.com" ["WWW.A.com/"; "a.com"]);
    vm_compute; first [discriminate|reflexivity].
Defined.

End LoadedValue.

(* ================================================================== *)
(** * What the navigation guard can do *)

Section GuardOutcomes.

Variable URL_hostname : string -> option string.
Variable extensionId : string.

Lemma checkAndBlockDomain_outcomes (url : string) (tabId : Z) (current : Store) :
  In (checkAndBlockDomain URL_hostname extensionId url tabId current)
     (guardOutcomes extensionId tabId).
Proof.
  unfold checkAndBlockDomain, guardOutcomes.
  destruct (skipped url); [now left|].
  destruct (URL_hostname url) as [h|]; [|right; now left].
  unfold blockedDomainsStorage.isBlocked, storage.get.
  destruct (find _ current) as [e|]; [destruct (enabled e)|]; simpl; tauto.
Qed.

(** X14.  Whatever the event, the URL and the stored collection, an
    evaluation does one of four things: nothing; log an error; read the
    store; read the store and then redirect the tab of the event to the
    extension's blocked page.  It never redirects another tab or to
    another address, never redirects without having read the store, and
    never does either twice.  A tab update whose status is not [loading],
    or that carries no URL, does nothing. *)
Theorem guard_outcomes
  (details : NavigationDetails) (tabId : Z) (changeInfo : ChangeInfo)
  (tab : Tab) (current : Store) :
  In (onCommitted URL_hostname extensionId details current)
     (guardOutcomes extensionId (detailsTabId details)) /\
  In (onUpdated URL_hostname extensionId tabId changeInfo tab current)
     (guardOutcomes extensionId tabId) /\
  ((status changeInfo <> Some "loading" \/ tabUrl tab = None \/ tabUrl tab = Some "") ->
   onUpdated URL_hostname extensionId tabId changeInfo tab current = []).
Proof.
  split; [|split].
  - unfold onCommitted. destruct (frameId details =? 0)%Z.
    + apply checkAndBlockDomain_outcomes.
    + now left.
  - unfold onUpdated.
    destruct (status changeInfo) as [st|], (tabUrl tab) as [u|]; try now left.
    destruct (_ && _); [apply checkAndBlockDomain_outcomes|now left].
  - unfold onUpdated. intros H.
    destruct (status changeInfo) as [st|]; [|reflexivity].
    destruct (tabUrl tab) as [u|]; [|reflexivity].
    destruct (st =? "loading")%string eqn:E; [|reflexivity].
    apply String.eqb_eq in E. subst st.
    destruct H as [H|[H|H]]; [now destruct H|discriminate|].
    injection H as ->. reflexivity.
Qed.

End GuardOutcomes.

(* ================================================================== *)
(** * The popup and the store *)

Section PopupFacts.

Variable t : string -> string.

Lemma trim_blank_normalizeDomain (input : string) :
  Js.trim input = EmptyString -> normalizeDomain input = EmptyString.
Proof. intros H. unfold normalizeDomain. now rewrite H. Qed.

Lemma add_resolves_iff (input : string) (s : Store) :
  fst (blockedDomainsStorage.add input s) = inr tt <->
  normalizeDomain input <> EmptyString /\
  isValidDomain (normalizeDomain input) = true /\
  existsb (fun d => (domain d =? normalizeDomain input)%string) s = false.
Proof.
  destruct (invalid_dec (normalizeDomain input)) as [H|[H1 H2]].
  - rewrite (add_invalid _ _ H). split; [discriminate|].
    intros (Hne & Hv & _). destruct H; congruence.
  - rewrite (add_valid _ _ H1 H2).
    destruct (existsb _ s); simpl; split; try discriminate; try tauto.
    intros (_ & _ & H). discriminate.
Qed.

Lemma validation_agrees_with_add_helper (input : string) (s : Store) :
  (Js.trim input = "" ->
   Popup.validationError t input s = None /\
   fst (blockedDomainsStorage.add input s) = inl InvalidFormat) /\
  (Js.trim input <> "" ->
   (Popup.validationError t input s = None <->
    fst (blockedDomainsStorage.add input s) = inr tt)).
Proof.
  unfold Popup.validationError. split.
  - intros H. rewrite H. split; [reflexivity|].
    rewrite add_invalid; [reflexivity|].
    left. now apply trim_blank_normalizeDomain.
  - intros H. apply String.eqb_neq in H. rewrite H, add_resolves_iff.
    destruct (existsb _ s).
    + split; [discriminate|]. intros (_ & _ & E). discriminate.
    + destruct (isValidDomain (normalizeDomain input)) eqn:V; simpl.
      * split; [|reflexivity]. intros _. repeat split.
        intros E. rewrite E in V. discriminate.
      * split; [discriminate|]. intros (_ & E & _). discriminate.
Qed.

(** X15.  The popup's validation and [add] agree.  For an input that is
    not blank, the validation reports no error exactly when [add], on the
    collection the validation saw, resolves.  A blank input is never
    reported, although [add] would reject it as [InvalidFormat]. *)
Theorem validation_agrees_with_add (input : string) (s : Store) :
  (Js.trim input = "" ->
   Popup.validationError t input s = None /\
   fst (blockedDomainsStorage.add input s) = inl InvalidFormat) /\
  (Js.trim input <> "" ->
   (Popup.validationError t input s = None <->
    fst (blockedDomainsStorage.add input s) = inr tt)).
Proof.
  pose proof (validation_agrees_with_add_helper input s) as [Hblank Hother].
  split; [exact Hblank|].
  intros H. split; intros E; now apply (Hother H).
Qed.

(** X16.  When the popup's snapshot is the stored collection, the add
    button changes the collection exactly as [add] on the typed text does;
    the input is cleared and no error is shown when [add] resolved, and the
    text is kept otherwise.  With any snapshot the collection is left as
    it was or becomes what [add] makes of it. *)
Theorem handleAddDomain_effect (st : Popup.State) (snapshot s : Store) :
  snd (Popup.handleAddDomain t st s s) = after (Add (Popup.domainInput st)) s /\
  (fst (blockedDomainsStorage.add (Popup.domainInput st) s) = inr tt ->
   fst (Popup.handleAddDomain t st s s) = Popup.mkState "" None) /\
  (fst (blockedDomainsStorage.add (Popup.domainInput st) s) <> inr tt ->
   Popup.domainInput (fst (Popup.handleAddDomain t st s s)) = Popup.domainInput st) /\
  (snd (Popup.handleAddDomain t st snapshot s) = s \/
   snd (Popup.handleAddDomain t st snapshot s) = after (Add (Popup.domainInput st)) s).
Proof.
  set (input := Popup.domainInput st).
  assert (forall snap,
            snd (Popup.handleAddDomain t st snap s) = s \/
            snd (Popup.handleAddDomain t st snap s) = after (Add input) s) as Hany.
  { intros snap. unfold Popup.handleAddDomain. fold input.
    destruct (Js.trim input =? "")%string; [now left|].
    destruct (Popup.truthy _); [now left|].
    right. unfold after, perform.
    now destruct (blockedDomainsStorage.add input s) as [[e|u] next]. }
  assert (fst (blockedDomainsStorage.add input s) <> inr tt ->
          after (Add input) s = s) as Hrej.
  { intros H. destruct (after_Add input s) as [E|[E Habs]]; [exact E|].
    exfalso. apply H. apply add_resolves_iff.
    unfold after, perform in E.
    destruct (invalid_dec (normalizeDomain input)) as [Hi|[H1 H2]].
    - rewrite (add_invalid _ _ Hi) in E. simpl in E.
      apply (f_equal (@List.length _)) in E. rewrite length_app in E.
      simpl in E. lia.
    - repeat split; auto. destruct (existsb _ s) eqn:X; [|reflexivity].
      exfalso. apply Habs. now apply existsb_present. }
  split; [|split; [|split; [|apply Hany]]].
  - unfold Popup.handleAddDomain. fold input.
    destruct (Js.trim input =? "")%string eqn:B.
    + simpl. symmetry. apply Hrej.
      apply String.eqb_eq in B.
      rewrite add_invalid; [discriminate|].
      left. now apply trim_blank_normalizeDomain.
    + destruct (Popup.truthy _) eqn:T.
      * simpl. symmetry. apply Hrej. intros R.
        apply String.eqb_neq in B.
        apply (proj2 (validation_agrees_with_add_helper input s) B) in R.
        rewrite R in T. discriminate.
      * unfold after, perform.
        now destruct (blockedDomainsStorage.add input s) as [[e|u] next].
  - intros R. unfold Popup.handleAddDomain. fold input.
    assert (Js.trim input <> "") as B.
    { intros B. apply trim_blank_normalizeDomain in B.
      apply add_resolves_iff in R. tauto. }
    pose proof (proj1 (proj2 (validation_agrees_with_add_helper input s) B)) as V.
    apply String.eqb_neq in B. rewrite B.
    rewrite (proj2 (proj2 (validation_agrees_with_add_helper input s)
                      (proj1 (String.eqb_neq _ _) B)) R).
    simpl. destruct (blockedDomainsStorage.add input s) as [[e|[]] next];
      [discriminate|reflexivity].
  - intros R. unfold Popup.handleAddDomain. fold input.
    destruct (Js.trim input =? "")%string; [reflexivity|].
    destruct (Popup.truthy _); [reflexivity|].
    destruct (blockedDomainsStorage.add input s) as [[e|[]] next];
      [reflexivity|now destruct R].
Qed.

End PopupFacts.

(* ================================================================== *)
(** * From the popup to the guard *)

Section EndToEnd.

Variable t : string -> string.
Variable URL_hostname : string -> option string.
Variable extensionId : string.

Lemma replaceWww_settled (h : string) :
  allChars isDomainChar h = true -> lowercase h -> noWww (replaceWww h) ->
  normalizeDomain (replaceWww h) = replaceWww h.
Proof.
  intros Hh Hl Hw.
  rewrite normalizeDomain_domainChars.
  - unfold noWww in Hw. rewrite stripPrefix_startsWith in Hw.
    unfold replaceWww at 1. now destruct (Js.stripPrefix "www." (replaceWww h)).
  - now apply allChars_replaceWww.
  - apply lowercase_allChars, allChars_replaceWww. now apply lowercase_allChars.
Qed.

(** X17.  "Add current page", then the same page again.  For a page
    [http(s)://h/...] whose host [h], less one leading [www.], is a valid
    domain that is not in the list yet, the button appends that domain,
    enabled; and the next evaluation of the same URL reads the store and
    redirects the tab to the blocked page.  The URL must not contain the
    text [blocked.html], and the host must not start with [www.www.]. *)
Theorem add_current_page_then_blocked
  (st : Popup.State) (scheme h rest : string) (tabId : Z) (s : Store) :
  In scheme ["https://"; "http://"] ->
  h <> "" -> allChars isDomainChar h = true -> lowercase h ->
  rest = "" \/ Js.startsWith "/" rest = true ->
  isValidDomain (replaceWww h) = true ->
  noWww (replaceWww h) ->
  ~ present (replaceWww h) s ->
  Js.includes "blocked.html" (scheme ++ h ++ rest) = false ->
  URL_hostname (scheme ++ h ++ rest) = Some h ->
  let url := (scheme ++ h ++ rest)%string in
  let s' := snd (Popup.handleAddCurrentPage t st (Some (mkTab (Some url))) s) in
  s' = s ++ [mkBlockedDomain (replaceWww h) true] /\
  checkAndBlockDomain URL_hostname extensionId url tabId s'
  = [StorageRead; TabsUpdate tabId (getURL extensionId "blocked.html")].
Proof.
  intros Hs Hne Hh Hl Hrest Hv Hw Habs Hinc Hurl. cbv zeta.
  set (url := (scheme ++ h ++ rest)%string) in *.
  set (n := replaceWww h) in *.
  assert (normalizeDomain url = n) as Hn.
  { apply normalizeDomain_host_text; auto.
    destruct Hs as [<-|[<-|[]]]; simpl; auto. }
  assert ((url =? "")%string = false /\
          Js.startsWith "chrome://" url = false /\
          Js.startsWith "chrome-extension://" url = false /\
          Js.startsWith "about:" url = false) as (U0 & U1 & U2 & U3).
  { unfold url. destruct Hs as [<-|[<-|[]]]; repeat split. }
  assert (n <> "") as Hnn by (intros E; rewrite E in Hv; discriminate).
  assert (blockedDomainsStorage.add url s
          = (inr tt, s ++ [mkBlockedDomain n true])) as Hadd.
  { rewrite add_valid; rewrite Hn; auto.
    destruct (existsb _ s) eqn:X; [|reflexivity].
    exfalso. apply Habs. now apply existsb_present. }
  assert (snd (Popup.handleAddCurrentPage t st (Some (mkTab (Some url))) s)
          = s ++ [mkBlockedDomain n true]) as ->.
  { unfold Popup.handleAddCurrentPage. cbn [tabUrl].
    now rewrite U0, U1, U2, U3, Hadd. }
  split; [reflexivity|].
  unfold checkAndBlockDomain, skipped. rewrite U1, U2, U3, Hinc, Hurl. cbn [orb].
  rewrite (normalizeDomain_domainChars h Hh Hl). fold n.
  unfold blockedDomainsStorage.isBlocked, storage.get.
  unfold n at 1. rewrite (replaceWww_settled h Hh Hl Hw). fold n.
  now rewrite (find_app_absent n s (mkBlockedDomain n true) Habs eq_refl).
Qed.

End EndToEnd.

Lemma add_current_page_then_blocked_witness :
  let url := ("https://" ++ "www.example.com" ++ "/a/b?c=d")%string in
  let s' :=
    snd (Popup.handleAddCurrentPage (fun key => key) (Popup.mkState "" None)
           (Some (mkTab (Some url))) [mkBlockedDomain "focus.org" false]) in
  s' = [mkBlockedDomain "focus.org" false]
       ++ [mkBlockedDomain (replaceWww "www.example.com") true] /\
  checkAndBlockDomain UrlReader.hostname "abcdefgh" url 7 s'
  = [StorageRead; TabsUpdate 7 (getURL "abcdefgh" "blocked.html")].
Proof.
  apply (add_current_page_then_blocked (fun key => key) UrlReader.hostname
           "abcdefgh" (Popup.mkState "" None) "https://" "www.example.com"
           "/a/b?c=d" 7 [mkBlockedDomain "focus.org" false]).
  - left. reflexivity.
  - discriminate.
  - vm_compute. reflexivity.
  - vm_compute. reflexivity.
  - right. vm_compute. reflexivity.
  - vm_compute. reflexivity.
  - vm_compute. reflexivity.
  - intros (e & [<-|[]] & He). vm_compute in He. discriminate.
  - vm_compute. reflexivity.
  - vm_compute. reflexivity.
Defined.

(* ================================================================== *)
(** * The badge of the popup *)

Section Badge.

Lemma flip_absent (n : string) (s : Store) :
  ~ In n (map domain s) -> map (flipIf n) s = s.
Proof.
  intros H. apply map_fixed. intros e He. apply flipIf_fixed.
  intros E. apply H. rewrite <- E. now apply in_map.
Qed.

(** X18.  In a collection with distinct domains, toggling the domain of
    an entry moves the count of enabled entries by exactly one: down when
    the entry was enabled, up when it was disabled.  The number of entries
    stays the same. *)
Theorem toggle_moves_enabledCount (e : BlockedDomain) (s : Store) :
  uniqueDomains s -> In e s ->
  List.length (after (Toggle (domain e)) s) = List.length s /\
  Popup.enabledCount (after (Toggle (domain e)) s) + (if enabled e then 1 else 0)
  = Popup.enabledCount s + (if enabled e then 0 else 1).
Proof.
  rewrite after_Toggle. intros Hu Hin. split; [apply length_map|].
  unfold uniqueDomains, Popup.enabledCount in *.
  induction s as [|a s IH]; [contradiction|].
  inversion Hu as [|? ? Hfresh Hrest]; subst.
  destruct Hin as [->|Hin].
  - cbn [map filter]. rewrite (flip_absent _ _ Hfresh).
    unfold flipIf. rewrite String.eqb_refl. cbn [enabled].
    destruct (enabled e); simpl; lia.
  - assert (domain a <> domain e) as Hne.
    { intros E. apply Hfresh. rewrite E. now apply in_map. }
    cbn [map filter]. apply (proj2 (flipIf_fixed (domain e) a)) in Hne.
    rewrite Hne. specialize (IH Hrest Hin).
    destruct (enabled a); cbn [List.length]; lia.
Qed.

Lemma toggle_moves_enabledCount_witness :
  List.length (after (Toggle (domain (mkBlockedDomain "b.org" false)))
                 [mkBlockedDomain "a.com" true; mkBlockedDomain "b.org" false])
  = List.length [mkBlockedDomain "a.com" true; mkBlockedDomain "b.org" false] /\
  Popup.enabledCount
    (after (Toggle (domain (mkBlockedDomain "b.org" false)))
       [mkBlockedDomain "a.com" true; mkBlockedDomain "b.org" false])
  + (if enabled (mkBlockedDomain "b.org" false) then 1 else 0)
  = Popup.enabledCount [mkBlockedDomain "a.com" true; mkBlockedDomain "b.org" false]
    + (if enabled (mkBlockedDomain "b.org" false) then 0 else 1).
Proof.
  apply (toggle_moves_enabledCount (mkBlockedDomain "b.org" false)
           [mkBlockedDomain "a.com" true; mkBlockedDomain "b.org" false]).
  - unfold uniqueDomains. simpl.
    constructor; [intros [H|[]]; discriminate|].
    constructor; [intros []|constructor].
  - right. left. reflexivity.
Defined.

End Badge.

(* ================================================================== *)
(** * Lifting a block *)

Section LiftingBlock.

Variable URL_hostname : string -> option string.
Variable extensionId : string.

Lemma guard_by_find (url : string) (tabId : Z) (s : Store) (h : string) :
  skipped url = false -> URL_hostname url = Some h ->
  checkAndBlockDomain URL_hostname extensionId url tabId s =
  StorageRead ::
  (if match find (fun d => (domain d =? normalizeDomain (normalizeDomain h))%string) s with
      | Some e => enabled e
      | None => false
      end
   then [TabsUpdate tabId (getURL extensionId "blocked.html")]
   else []).
Proof.
  intros Hs Hu. unfold checkAndBlockDomain. rewrite Hs, Hu.
  unfold blockedDomainsStorage.isBlocked, storage.get.
  now destruct (find _ s).
Qed.

(** X19.  Let [n] be the domain the guard looks up for a URL.  After
    [remove n] the evaluation of that URL only reads the store.  When an
    entry has the domain [n], [toggle n] switches the evaluation between
    redirecting and only reading the store. *)
Theorem remove_and_toggle_lift_block
  (url : string) (tabId : Z) (s : Store) (h : string) :
  skipped url = false -> URL_hostname url = Some h ->
  let n := normalizeDomain (normalizeDomain h) in
  let redirect := TabsUpdate tabId (getURL extensionId "blocked.html") in
  let eval := checkAndBlockDomain URL_hostname extensionId url tabId in
  eval (after (Remove n) s) = [StorageRead] /\
  (present n s ->
   (eval s = [StorageRead; redirect] /\ eval (after (Toggle n) s) = [StorageRead]) \/
   (eval s = [StorageRead] /\ eval (after (Toggle n) s) = [StorageRead; redirect])).
Proof.
  intros Hs Hu. cbv zeta. rewrite !(guard_by_find url tabId _ h Hs Hu).
  set (n := normalizeDomain (normalizeDomain h)). split.
  - rewrite after_Remove.
    assert (find (fun d => (domain d =? n)%string)
              (filter (fun d => negb (domain d =? n)%string) s) = None) as ->;
      [|reflexivity].
    apply find_none_absent. intros (e & He & Hd). apply filter_In in He.
    destruct He as [_ He]. apply negb_true_iff, String.eqb_neq in He. contradiction.
  - intros Hp. rewrite after_Toggle, find_flip_same.
    destruct (find _ s) as [e|] eqn:F.
    + apply find_some_present in F. destruct F as [_ Fd].
      apply String.eqb_eq in Fd. simpl. unfold flipIf. rewrite Fd. simpl.
      destruct (enabled e); simpl; [now left|now right].
    + apply find_none_absent in F. contradiction.
Qed.

End LiftingBlock.

Lemma remove_and_toggle_lift_block_witness :
  let n := normalizeDomain (normalizeDomain "www.example.com") in
  let redirect := TabsUpdate 7 (getURL "abcdefgh" "blocked.html") in
  let eval :=
    checkAndBlockDomain UrlReader.hostname "abcdefgh" "https://www.example.com/a" 7 in
  let s := [mkBlockedDomain "example.com" true] in
  eval (after (Remove n) s) = [StorageRead] /\
  (present n s ->
   (eval s = [StorageRead; redirect] /\ eval (after (Toggle n) s) = [StorageRead]) \/
   (eval s = [StorageRead] /\ eval (after (Toggle n) s) = [StorageRead; redirect])).
Proof.
  apply (remove_and_toggle_lift_block UrlReader.hostname "abcdefgh"
           "https://www.example.com/a" 7 [mkBlockedDomain "example.com" true]
           "www.example.com"); vm_compute; reflexivity.
Defined.
